(** * A shallow embedding of [src/shared/clients/cawsClient.ts]

    The client wraps a remote development-service API.  Its methods are
    asynchronous and mutate the client object, so they are embedded as
    computations in a small state-and-outcome monad: the state holds the
    client's fields, a discrete clock and the trace of outward effects
    (requests handed to the transport, progress reports, notifications);
    the outcome says how the promise settles.  The remote service is a
    section variable: a record of oracles answering each operation. *)

From stdpp Require Import base strings list gmap.

(** ** JavaScript values *)

(** Property values of the summary objects the listings handle: strings,
    and the one-field back references [{ name: ... }] the client adds. *)
Inductive Value :=
| VStr (s : string)
| VName (name : option string).

(** A JavaScript object used as a property bag.  A property that is
    missing (or [undefined]) is an absent key. *)
Abbreviation Obj := (gmap string Value).

(** [o.status] read as a string. *)
Definition prop (key : string) (o : Obj) : option string :=
  match o !! key with
  | Some (VStr s) => Some s
  | _ => None
  end.

(** JavaScript truthiness of a [string | undefined]. *)
Definition truthy (s : option string) : bool :=
  match s with
  | Some s => negb (String.eqb s "")
  | None => false
  end.

(** ** Failures and settled promises *)

Inductive Error :=
| AWSError (code : string)
| JsError (message : string)
| JsTypeError (message : string).

(** How a synchronous call completes. *)
Inductive Completion (T : Type) :=
| Returned (v : T)
| Threw (e : Error).
Arguments Returned {T} v.
Arguments Threw {T} e.

(** How a promise ends up.  [Pending] is a promise that never settles. *)
Inductive Outcome (T : Type) :=
| Resolved (v : T)
| Rejected (e : Error)
| Pending.
Arguments Resolved {T} v.
Arguments Rejected {T} e.
Arguments Pending {T}.

(** ** Requests, responses and the remote service *)

(** The fields of a workspace request the client reads.  The request
    types with [ideRuntimes] and [repositories] are not modelled, so the
    two [delete]s of [getDevelopmentWorkspace] have nothing to remove. *)
Record WorkspaceRequest := {
  wsId : string;
  organizationName : string;
  projectName : string
}.

Record VerifySessionResponse := { identity : option string }.

Record GetUserDetailsResponse := {
  respUserId : option string;
  respUserName : option string;
  respDisplayName : option string;
  respPrimaryEmail : option string;
  respVersion : option string
}.

Record UserDetails := {
  userId : string;
  userName : string;
  displayName : string;
  primaryEmail : string;
  version : string
}.

(** One page of a listing: [items] and [nextToken], both optional. *)
Record Page := {
  items : option (list Obj);
  nextToken : option string
}.

Inductive Operation :=
| VerifySession
| GetUserDetails (id : string)
| GetDevelopmentWorkspace (a : WorkspaceRequest)
| StartDevelopmentWorkspace (a : WorkspaceRequest)
| ListOrganizations (request : Obj)
| ListProjects (request : Obj)
| ListSourceRepositories (request : Obj)
| ListDevelopmentWorkspace (request : Obj).

(** Outward effects, newest first in the trace. *)
Inductive Event :=
| Sent (op : Operation)
| ShowMessageWithCancel
| Report (message : string)
| ShowErrorMessage (message : string).

Definition isVerifySession (e : Event) : bool :=
  match e with Sent VerifySession => true | _ => false end.
Definition isGetUserDetails (e : Event) : bool :=
  match e with Sent (GetUserDetails _) => true | _ => false end.
Definition isGetDevelopmentWorkspace (e : Event) : bool :=
  match e with Sent (GetDevelopmentWorkspace _) => true | _ => false end.
Definition isStartDevelopmentWorkspace (e : Event) : bool :=
  match e with Sent (StartDevelopmentWorkspace _) => true | _ => false end.
Definition isShowErrorMessage (e : Event) : bool :=
  match e with ShowErrorMessage _ => true | _ => false end.

(** How many events of one kind a trace holds. *)
Fixpoint count (k : Event -> bool) (tr : list Event) : nat :=
  match tr with
  | [] => 0
  | e :: tr' => (if k e then 1 else 0) + count k tr'
  end.

(** The remote service.  The transport always calls back, with an error
    or with data.  An operation on one changing resource answers by the
    number of earlier requests of its kind; a page source answers by the
    request alone. *)
Record Remote := {
  verifySessionR : nat -> Error + VerifySessionResponse;
  getUserDetailsR : nat -> string -> Error + GetUserDetailsResponse;
  getDevelopmentWorkspaceR : nat -> WorkspaceRequest -> Error + Obj;
  startDevelopmentWorkspaceR : nat -> WorkspaceRequest -> Error + Obj;
  listOrganizationsR : Obj -> Error + Page;
  listProjectsR : Obj -> Error + Page;
  listSourceRepositoriesR : Obj -> Error + Page;
  listDevelopmentWorkspaceR : Obj -> Error + Page
}.

(** ** The client object and the state of the world *)

(** What [createCawsClient] builds: a transport bound to a region and an
    endpoint whose request listener adds the [Authorization] header. *)
Record SdkClient := {
  authorization : option string;
  sdkRegion : string;
  sdkEndpoint : string
}.

(** The fields of the class; [clientUserId] is its [userId]. *)
Record CawsClientInternal := {
  regionCode : string;
  endpoint : string;
  sdkClient : SdkClient;
  bearerToken : option string;
  clientUserId : option string;
  userDetails : option UserDetails
}.

Record State := {
  this : CawsClientInternal;
  clock : nat;
  trace : list Event
}.

Definition withThis (c : CawsClientInternal) (s : State) : State :=
  {| this := c; clock := clock s; trace := trace s |}.
Definition emit (e : Event) (s : State) : State :=
  {| this := this s; clock := clock s; trace := e :: trace s |}.
Definition tick (s : State) : State :=
  {| this := this s; clock := S (clock s); trace := trace s |}.

(** ** The monad of asynchronous methods *)

Definition M (T : Type) : Type := State -> Outcome T * State.

Definition ret {T} (v : T) : M T := fun s => (Resolved v, s).
Definition throw {T} (e : Error) : M T := fun s => (Rejected e, s).
Definition bind {T U} (m : M T) (k : T -> M U) : M U :=
  fun s =>
    match m s with
    | (Resolved v, s') => k v s'
    | (Rejected e, s') => (Rejected e, s')
    | (Pending, s') => (Pending, s')
    end.
Definition get : M State := fun s => (Resolved s, s).
Definition modify (f : State -> State) : M unit := fun s => (Resolved tt, f s).

Notation "'let*' x ':=' m 'in' k" := (bind m (fun x => k))
  (at level 10, x name, m at level 100, k at level 200).
Notation "m ';;' k" := (bind m (fun _ => k))
  (at level 100, k at level 200, right associativity).

(** [try { m } catch { h }]. *)
Definition tryCatch {T} (m : M T) (h : Error -> M T) : M T :=
  fun s =>
    match m s with
    | (Rejected e, s') => h e s'
    | r => r
    end.

(** A request built by the SDK client: the operation it names and the
    remote's answer given the trace so far. *)
Record Request (T : Type) := {
  operation : Operation;
  respond : list Event -> Error + T
}.
Arguments operation {T} r.
Arguments respond {T} r.

(** [createCawsClient]: the header is set when the token is truthy. *)
Definition createCawsClient (bearerToken : option string) (regionCode endpoint : string)
  : SdkClient :=
  {| authorization :=
       match bearerToken with
       | Some t => if truthy (Some t) then Some ("Bearer " +:+ t) else None
       | None => None
       end;
     sdkRegion := regionCode;
     sdkEndpoint := endpoint |}.

(** The getter [connected]: [!!(this.bearerToken && this.userDetails)]. *)
Definition connected (c : CawsClientInternal) : bool :=
  truthy (bearerToken c) && bool_decide (is_Some (userDetails c)).

(** The getter [identity], giving the pair of [id] and [name]. *)
Definition clientIdentity (c : CawsClientInternal) : Completion (string * string) :=
  match userDetails c with
  | None => Threw (JsError "CAWS client is not connected")
  | Some d => Returned (userId d, userName d)
  end.

(** The getter [token]. *)
Definition token (c : CawsClientInternal) : Completion (option string) :=
  if connected c then Returned (bearerToken c)
  else Threw (JsError "CAWS client is not connected").

(** [setCredentials]: the second argument is a string, a details record
    or left out. *)
Definition setCredentials (bearerToken : string) (id : option (string + UserDetails))
  : M unit :=
  modify (fun s =>
    let c := this s in
    withThis
      {| regionCode := regionCode c;
         endpoint := endpoint c;
         sdkClient := createCawsClient (Some bearerToken) (regionCode c) (endpoint c);
         bearerToken := Some bearerToken;
         clientUserId := match id with Some (inl i) => Some i | _ => clientUserId c end;
         userDetails := match id with
                        | Some (inl _) => userDetails c
                        | Some (inr d) => Some d
                        | None => None
                        end |} s).

(** [call]: send the request; on an error, resolve to the default when
    silent (throwing inside the transport's callback when there is none,
    which leaves the promise unsettled) and reject otherwise.  What it
    writes to the log is left out. *)
Definition call {T} (req : Request T) (silent : bool) (defaultVal : option T) : M T :=
  fun s =>
    let s' := emit (Sent (operation req)) s in
    match respond req (trace s) with
    | inl e =>
        if silent then
          match defaultVal with
          | None => (Pending, s')
          | Some d => (Resolved d, s')
          end
        else (Rejected e, s')
    | inr data => (Resolved data, s')
    end.

Section Client.

Variable remote : Remote.

Definition sdk_verifySession : Request VerifySessionResponse :=
  {| operation := VerifySession;
     respond := fun tr => verifySessionR remote (count isVerifySession tr) |}.

Definition sdk_getUserDetails (id : string) : Request GetUserDetailsResponse :=
  {| operation := GetUserDetails id;
     respond := fun tr => getUserDetailsR remote (count isGetUserDetails tr) id |}.

(** Modelled from the spec: [assertHasProps] of [utilities/tsUtils],
    which is not among the sources.  Section 4.3 has [verifySession]
    require the response to contain an [identity] field and fail with a
    validation error otherwise; section 7 has a ValidationError whenever a
    required response field is absent. *)
Definition assertHasProps {T} (missing : list string) (v : option T) : M T :=
  match v with
  | Some x => ret x
  | None => throw (JsError ("Properties are missing: " +:+ String.concat ", " missing))
  end.

(** The response with the four asserted fields required, as the
    assertion narrows its type; [version] is kept as it came. *)
Definition requiredDetails (resp : GetUserDetailsResponse) : option UserDetails :=
  match respUserId resp, respUserName resp, respDisplayName resp,
        respPrimaryEmail resp with
  | Some i, Some n, Some d, Some m =>
      Some {| userId := i; userName := n; displayName := d; primaryEmail := m;
              version := default "undefined" (respVersion resp) |}
  | _, _, _, _ => None
  end.

Definition absent (name : string) (field : option string) : list string :=
  match field with Some _ => [] | None => [name] end.

Definition missingDetails (resp : GetUserDetailsResponse) : list string :=
  absent "userId" (respUserId resp) ++ absent "userName" (respUserName resp) ++
  absent "displayName" (respDisplayName resp) ++
  absent "primaryEmail" (respPrimaryEmail resp).

Definition getUserDetails (id : string) : M UserDetails :=
  let* resp := call (sdk_getUserDetails id) false None in
  let* d := assertHasProps (missingDetails resp) (requiredDetails resp) in
  if bool_decide (respVersion resp = Some "1") then ret d
  else throw (JsError ("CAWS 'getUserDetails' API returned an unsupported version: "
                       +:+ version d)).

Definition setUserId (id : string) : M unit :=
  modify (fun s =>
    let c := this s in
    withThis {| regionCode := regionCode c; endpoint := endpoint c;
                sdkClient := sdkClient c; bearerToken := bearerToken c;
                clientUserId := Some id; userDetails := userDetails c |} s).

Definition setUserDetails (d : UserDetails) : M unit :=
  modify (fun s =>
    let c := this s in
    withThis {| regionCode := regionCode c; endpoint := endpoint c;
                sdkClient := sdkClient c; bearerToken := bearerToken c;
                clientUserId := clientUserId c; userDetails := Some d |} s).

Definition verifySession : M UserDetails :=
  let* resp := call sdk_verifySession false None in
  let* ident := assertHasProps ["identity"] (identity resp) in
  let* s := get in
  if truthy (clientUserId (this s))
     && negb (bool_decide (clientUserId (this s) = Some ident))
  then throw (JsError "CAWS identity does not match the one provided by the client")
  else
    setUserId ident ;;
    let* s' := get in
    let* d := match userDetails (this s') with
              | Some d => ret d
              | None => getUserDetails ident
              end in
    setUserDetails d ;;
    ret d.

(** *** Workspaces *)

Definition sdk_getDevelopmentWorkspace (a : WorkspaceRequest) : Request Obj :=
  {| operation := GetDevelopmentWorkspace a;
     respond := fun tr =>
       getDevelopmentWorkspaceR remote (count isGetDevelopmentWorkspace tr) a |}.

Definition sdk_startDevelopmentWorkspace (a : WorkspaceRequest) : Request Obj :=
  {| operation := StartDevelopmentWorkspace a;
     respond := fun tr =>
       startDevelopmentWorkspaceR remote (count isStartDevelopmentWorkspace tr) a |}.

(** The request as an object, for [{ ...args, ...r }]. *)
Definition requestObj (a : WorkspaceRequest) : Obj :=
  {[ "id" := VStr (wsId a);
     "organizationName" := VStr (organizationName a);
     "projectName" := VStr (projectName a) ]}.

(** [{ type: 'env', org: ..., project: ..., ...summary }]: the summary is
    spread last, so its own properties win. *)
Definition intoDevelopmentWorkspace (organizationName projectName : option string)
    (summary : Obj) : Obj :=
  summary ∪ {[ "type" := VStr "env";
               "org" := VName organizationName;
               "project" := VName projectName ]}.

Definition getDevelopmentWorkspace (args : WorkspaceRequest) : M Obj :=
  let* r := call (sdk_getDevelopmentWorkspace args) false None in
  ret (intoDevelopmentWorkspace (Some (organizationName args))
         (Some (projectName args)) (r ∪ requestObj args)).

Definition startDevEnv (args : WorkspaceRequest) : M Obj :=
  call (sdk_startDevelopmentWorkspace args) false None.

End Client.

(** ** Timeouts and polling *)

(** Modelled from the spec: the [Timeout] of [utilities/timeoutUtils],
    which is not among the sources.  Section 4.4 gives the orchestrator
    an overall timeout that either expires or is cancelled by the user,
    and section 5 a shared token the poll loop reads.  Time is counted in
    polling intervals: the token expires at [deadline] unless the user
    cancels strictly earlier, at [cancelAt]. *)
Record Timeout := {
  deadline : nat;
  cancelAt : option nat
}.

(** Modelled from the spec: the two ways the timer of a [Timeout] ends
    (section 4.4 step 3: timeout expiry, explicit user cancellation). *)
Inductive TimerEnd := Expired | Cancelled.

(** Modelled from the spec: when the timer of a [Timeout] fires, and how. *)
Definition firesAt (t : Timeout) : nat :=
  match cancelAt t with
  | Some c => Nat.min c (deadline t)
  | None => deadline t
  end.

Definition firesAs (t : Timeout) : TimerEnd :=
  match cancelAt t with
  | Some c => if c <? deadline t then Cancelled else Expired
  | None => Expired
  end.

(** Modelled from the spec: [timeout.completed] and
    [timeout.remainingTime] at a given time (section 4.4 step 2a: an
    iteration after the timeout has elapsed is a no-op). *)
Definition completed (t : Timeout) (now : nat) : bool := firesAt t <=? now.
Definition remainingTime (t : Timeout) (now : nat) : nat := deadline t - now.

(** Modelled from the spec: [new Timeout(180000)], the default of section
    4.4, with the 5000 ms interval as the unit. *)
Definition newTimeout (now : nat) : Timeout :=
  {| deadline := now + 36; cancelAt := None |}.

(** Modelled from the spec: [waitUntil] of [utilities/timeoutUtils], which
    is not among the sources.  Section 4.4 step 2 has a bounded polling
    loop at a fixed interval that stops once an iteration meets the
    success condition, and lists among the terminal outcomes the error
    thrown inside the loop.  [fn] is the callback with the variable it
    closes over passed explicitly; one interval passes after each
    iteration that yields nothing. *)
Fixpoint waitUntil {L A} (fn : L -> M (option A * L)) (rounds : nat) (l : L)
  : M (option A) :=
  match rounds with
  | 0 => ret None
  | S n =>
      let* r := fn l in
      match r with
      | (Some v, _) => ret (Some v)
      | (None, l') => modify tick ;; waitUntil fn n l'
      end
  end.

(** Modelled from the spec: [waitTimeout] of [utilities/timeoutUtils],
    which is not among the sources.  Section 4.4 step 3: the loop and the
    timeout are raced and whichever completes first wins; when the timer
    wins, the handler for expiry or for cancellation gives the result. *)
Definition waitTimeout {A} (promise : M (option A)) (t : Timeout)
    (onExpire onCancel : M (option A)) : M (option A) :=
  fun s =>
    let '(r, s') := promise s in
    let timer := match firesAs t with
                 | Expired => onExpire s'
                 | Cancelled => onCancel s'
                 end in
    match r with
    | Pending => timer
    | _ => if clock s' <? firesAt t then (r, s') else timer
    end.

Section Orchestrator.

Variable remote : Remote.

Definition report (message : string) : M unit := modify (emit (Report message)).

(** The callback handed to [waitUntil]; [lastStatus] is the variable of
    the enclosing method that the callback reads and assigns. *)
Definition pollMde (args : WorkspaceRequest) (timeout : Timeout)
    (lastStatus : option string) : M (option Obj * option string) :=
  let* s := get in
  if completed timeout (clock s) then ret (None, lastStatus)
  else
    let* resp := getDevelopmentWorkspace remote args in
    let status := prop "status" resp in
    if bool_decide (lastStatus = Some "STARTING")
       && (bool_decide (status = Some "STOPPED")
           || bool_decide (status = Some "STOPPING"))
    then throw (JsError "Evironment failed to start")
    else
      (if bool_decide (status = Some "STOPPED") then
         report "resuming environment..." ;;
         startDevEnv remote args ;;
         ret tt
       else if bool_decide (status = Some "STOPPING") then
         report "waiting for environment to stop..."
       else
         report "waiting for environment...") ;;
      ret (if bool_decide (status = Some "RUNNING") then Some resp else None,
           status).

(** The method from [showMessageWithCancel] on.  [showMessageWithCancel]
    of [utilities/messages] is not among the sources; it is kept as the
    event of opening the progress notification of section 6. *)
Definition pollingPhase (args : WorkspaceRequest) (timeout : Timeout)
    (lastStatus : option string) : M (option Obj) :=
  modify (emit ShowMessageWithCancel) ;;
  report "checking status..." ;;
  let* s := get in
  waitTimeout
    (waitUntil (pollMde args timeout) (remainingTime timeout (clock s)) lastStatus)
    timeout
    (modify (emit (ShowErrorMessage ("Timeout waiting for workspace: " +:+ wsId args))) ;;
     ret None)
    (ret None).

(** The first status fetch, in its [try]: either the workspace to
    return at once, or the [lastStatus] to poll from. *)
Definition firstFetch (args : WorkspaceRequest) (status : string)
  : M (Obj + option string) :=
  tryCatch
    (let* env := getDevelopmentWorkspace remote args in
     let lastStatus := prop "status" env in
     if bool_decide (status = "RUNNING") && bool_decide (lastStatus = Some "RUNNING")
     then ret (inl env)
     else ret (inr lastStatus))
    (fun _ => ret (inr None)).

Definition startEnvironmentWithProgress (args : WorkspaceRequest) (status : string)
    (timeout : Timeout) : M (option Obj) :=
  let* first := firstFetch args status in
  match first with
  | inl env => ret (Some env)
  | inr lastStatus => pollingPhase args timeout lastStatus
  end.

End Orchestrator.

(** ** Lazy sequences *)

(** Modelled from the spec: [AsyncCollection] and [toCollection] of
    [utilities/asyncCollection], which are not among the sources.
    Sections 4.1 and 9 ask for a lazy, pull-based sequence: pull one
    batch, suspend, repeat until exhausted, restartable per invocation.
    A collection is a cursor of type [C] with the step that pulls the
    next batch. *)
Record AsyncCollection (C T : Type) := {
  start : C;
  next : C -> M (option (T * C))
}.
Arguments start {C T} a.
Arguments next {C T} a cur.

(** A collection whose kind of cursor is not known to its user. *)
Inductive AnyCollection (T : Type) :=
| anyCollection {C : Type} (c : AsyncCollection C T).
Arguments anyCollection {T C} c.

(** Modelled from the spec: [collection.map(f)] of [AsyncCollection], the
    post-processing of each batch of section 4.2; [f] may throw. *)
Definition mapCollection {C T U} (f : T -> Completion U) (c : AsyncCollection C T)
  : AsyncCollection C U :=
  {| start := start c;
     next := fun cur =>
       let* r := next c cur in
       match r with
       | None => ret None
       | Some (v, cur') =>
           match f v with
           | Returned u => ret (Some (u, cur'))
           | Threw e => throw e
           end
       end |}.

Definition never {T} : M T := fun s => (Pending, s).

(** Modelled from the spec: pulling an [AsyncCollection] until it is
    exhausted (section 9: pull one batch, suspend, repeat until exhausted).
    A sequence that yields more than [fuel] batches is not exhausted
    within it: the promise stays pending. *)
Fixpoint drain {C T} (c : AsyncCollection C T) (fuel : nat) (cur : C) : M (list T) :=
  match fuel with
  | 0 => never
  | S n =>
      let* r := next c cur in
      match r with
      | None => ret []
      | Some (v, cur') => let* vs := drain c n cur' in ret (v :: vs)
      end
  end.

(** Modelled from the spec: [collection.promise()] of [AsyncCollection],
    all the batches in order. *)
Definition promise {C T} (c : AsyncCollection C T) (fuel : nat) : M (list T) :=
  drain c fuel (start c).

(** Modelled from the spec: [collection.flatten().promise()] of
    [AsyncCollection], all the elements in order (section 2: the flattened
    sequence of items). *)
Definition flattenPromise {C T} (c : AsyncCollection C (list T)) (fuel : nat)
  : M (list T) :=
  let* batches := promise c fuel in ret (concat batches).

(** Pull [n] batches and keep the cursor reached: what a consumer that
    stops after [n] batches has seen. *)
Fixpoint pull {C T} (c : AsyncCollection C T) (n : nat) (cur : C)
  : M (list T * option C) :=
  match n with
  | 0 => ret ([], Some cur)
  | S n' =>
      let* r := next c cur in
      match r with
      | None => ret ([], None)
      | Some (v, cur') =>
          let* rest := pull c n' cur' in ret (v :: rest.1, rest.2)
      end
  end.

(** Modelled from the spec: [pageableToCollection] of
    [utilities/collectionUtils], which is not among the sources.
    Section 4.1: from a page-fetch function, an initial request and the
    names of the continuation and items fields, a lazy sequence of item
    batches, one per page, fetched one at a time, finite once a fetched
    page omits the continuation token.  The cursor is the request still to
    be sent, if any. *)
Definition pageableToCollection (requester : Obj -> M Page) (request : Obj)
    (mark : string) : AsyncCollection (option Obj) (option (list Obj)) :=
  {| start := Some request;
     next := fun cur =>
       match cur with
       | None => ret None
       | Some req =>
           let* page := requester req in
           ret (Some (items page,
                      match nextToken page with
                      | Some t => Some (<[mark := VStr t]> req)
                      | None => None
                      end))
       end |}.

(** [mapInner] of [listResources]: collect the outer sequence, then for
    each of its batches collect the inner sequence of every element and
    yield those arrays one by one.  The inner sequences of one batch run
    concurrently in the source; their requests are issued here in the
    order of the batch, which is also the order [Promise.all] gives their
    results. *)
Fixpoint allInner {C T U} (fn : T -> Completion (AsyncCollection C (list U)))
    (fuel : nat) (element : list T) : M (list (list U)) :=
  match element with
  | [] => ret []
  | e :: rest =>
      match fn e with
      | Threw err => throw err
      | Returned c =>
          let* us := flattenPromise c fuel in
          let* more := allInner fn fuel rest in
          ret (us :: more)
      end
  end.

(** The cursor of [mapInner]: nothing collected yet, or the arrays still
    to yield and the outer batches still to expand. *)
Definition InnerCursor (T U : Type) : Type :=
  option (list (list U) * list (list T)).

Fixpoint mapInnerStep {C T U} (fn : T -> Completion (AsyncCollection C (list U)))
    (fuel : nat) (outer : list (list T)) : M (option (list U * InnerCursor T U)) :=
  match outer with
  | [] => ret None
  | element :: outer' =>
      let* ys := allInner fn fuel element in
      match ys with
      | y :: queued => ret (Some (y, Some (queued, outer')))
      | [] => mapInnerStep fn fuel outer'
      end
  end.

Definition mapInner {C C' T U} (fuel : nat) (collection : AsyncCollection C (list T))
    (fn : T -> Completion (AsyncCollection C' (list U)))
  : AsyncCollection (InnerCursor T U) (list U) :=
  {| start := None;
     next := fun cur =>
       match cur with
       | None =>
           let* outer := promise collection fuel in mapInnerStep fn fuel outer
       | Some (y :: queued, outer) => ret (Some (y, Some (queued, outer)))
       | Some ([], outer) => mapInnerStep fn fuel outer
       end |}.

(** ** Listings *)

Inductive ResourceType := TOrg | TProject | TRepo | TBranch | TEnv.

(** A synchronous method: it may read and change the state, and returns
    or throws. *)
Definition Sync (T : Type) : Type := State -> Completion T * State.

(** [v.name] for a property value [v]. *)
Definition nameOf (v : option Value) : Completion (option string) :=
  match v with
  | None => Threw (JsTypeError "Cannot read properties of undefined (reading 'name')")
  | Some (VName n) => Returned n
  | Some (VStr _) => Returned None
  end.

(** [{ key: v }], where an [undefined] value leaves the property out. *)
Definition field (key : string) (v : option string) : Obj :=
  match v with
  | Some s => {[ key := VStr s ]}
  | None => ∅
  end.

(** The default of the silent page requests: [{ items: [] }]. *)
Definition emptyPage : Page := {| items := Some []; nextToken := None |}.

(** The collections the four listings return. *)
Abbreviation PagedListing := (AsyncCollection (option Obj) (list Obj)).

Section Listing.

Variable remote : Remote.

Definition sdk_listOrganizations (request : Obj) : Request Page :=
  {| operation := ListOrganizations request;
     respond := fun _ => listOrganizationsR remote request |}.
Definition sdk_listProjects (request : Obj) : Request Page :=
  {| operation := ListProjects request;
     respond := fun _ => listProjectsR remote request |}.
Definition sdk_listSourceRepositories (request : Obj) : Request Page :=
  {| operation := ListSourceRepositories request;
     respond := fun _ => listSourceRepositoriesR remote request |}.
Definition sdk_listDevelopmentWorkspace (request : Obj) : Request Page :=
  {| operation := ListDevelopmentWorkspace request;
     respond := fun _ => listDevelopmentWorkspaceR remote request |}.

(** [{ id: '', type: 'org', name: org.name ?? 'unknown', ...org }]. *)
Definition asCawsOrg (org : Obj) : Obj :=
  org ∪ {[ "id" := VStr "";
           "type" := VStr "org";
           "name" := default (VStr "unknown") (org !! "name") ]}.

Definition listOrgs (request : Obj) : PagedListing :=
  let requester := fun request =>
    call (sdk_listOrganizations request) true (Some emptyPage) in
  let collection := pageableToCollection requester request "nextToken" in
  mapCollection
    (fun summaries => Returned (asCawsOrg <$> default [] summaries)) collection.

(** The object [listProjects] makes of a summary [s]. *)
Definition asCawsProject (request s : Obj) : Obj :=
  s ∪ {[ "type" := VStr "project";
         "id" := VStr "";
         "org" := VName (prop "organizationName" request);
         "name" := default (VStr "unknown") (s !! "name") ]}.

Definition listProjects (request : Obj) : PagedListing :=
  let requester := fun request =>
    call (sdk_listProjects request) true (Some emptyPage) in
  let collection := pageableToCollection requester request "nextToken" in
  mapCollection
    (fun summaries => Returned (asCawsProject request <$> default [] summaries))
    collection.

Definition listDevEnvs (proj : Obj) : Completion PagedListing :=
  match nameOf (proj !! "org") with
  | Threw e => Threw e
  | Returned orgName =>
      let initRequest :=
        field "organizationName" orgName ∪ field "projectName" (prop "name" proj) in
      let requester := fun request =>
        call (sdk_listDevelopmentWorkspace request) true (Some emptyPage) in
      let collection := pageableToCollection requester initRequest "nextToken" in
      Returned
        (mapCollection
           (fun envs =>
              match envs with
              | Some envs =>
                  Returned
                    (intoDevelopmentWorkspace orgName (prop "name" proj) <$> envs)
              | None =>
                  Threw (JsTypeError
                           "Cannot read properties of undefined (reading 'map')")
              end)
           collection)
  end.

(** The object [listRepos] makes of a summary [s]. *)
Definition asCawsRepo (request s : Obj) : Obj :=
  s ∪ {[ "type" := VStr "repo";
         "id" := VStr "";
         "org" := VName (prop "organizationName" request);
         "project" := VName (prop "projectName" request);
         "name" := default (VStr "unknown") (s !! "name") ]}.

Definition listRepos (request : Obj) : PagedListing :=
  let requester := fun request =>
    call (sdk_listSourceRepositories request) true (Some emptyPage) in
  let collection := pageableToCollection requester request "nextToken" in
  mapCollection
    (fun summaries => Returned (asCawsRepo request <$> default [] summaries))
    collection.

(** [listResources].  Its calls to itself, at ['org'] and at ['project'],
    are the two local collections; [fuel] bounds the pages each listing
    may take when it is collected whole. *)
Definition listResources (fuel : nat) (resourceType : ResourceType)
  : Sync (AnyCollection (list Obj)) :=
  fun s =>
    let orgs := listOrgs ∅ in
    let projects :=
      mapInner fuel orgs
        (fun o => Returned (listProjects (field "organizationName" (prop "name" o)))) in
    match resourceType with
    | TOrg => (Returned (anyCollection orgs), s)
    | TProject => (Returned (anyCollection projects), s)
    | TRepo =>
        (Returned
           (anyCollection
              (mapInner fuel projects
                 (fun p =>
                    match nameOf (p !! "org") with
                    | Threw e => Threw e
                    | Returned orgName =>
                        Returned
                          (listRepos (field "projectName" (prop "name" p)
                                      ∪ field "organizationName" orgName))
                    end))), s)
    | TBranch => (Threw (JsError "Listing branches is not currently supported"), s)
    | TEnv =>
        (Returned (anyCollection (mapInner fuel projects (fun p => listDevEnvs p))), s)
    end.

End Listing.

(** ** What a run observes *)

Section Observations.

Variable remote : Remote.

(** The answer the remote gives to the next [verifySession] request. *)
Definition nextVerifyAnswer (s : State) : Error + VerifySessionResponse :=
  verifySessionR remote (count isVerifySession (trace s)).

Definition mismatchError : Error :=
  JsError "CAWS identity does not match the one provided by the client".

(** The answer the remote gives to the next status fetch. *)
Definition nextWorkspaceAnswer (args : WorkspaceRequest) (s : State) : Error + Obj :=
  getDevelopmentWorkspaceR remote (count isGetDevelopmentWorkspace (trace s)) args.

(** The workspace [getDevelopmentWorkspace] makes of an answer [r]. *)
Definition fetched (args : WorkspaceRequest) (r : Obj) : Obj :=
  intoDevelopmentWorkspace (Some (organizationName args)) (Some (projectName args))
    (r ∪ requestObj args).

(** The status the [k]-th status fetch observes; none when it fails. *)
Definition observed (args : WorkspaceRequest) (k : nat) : option string :=
  match getDevelopmentWorkspaceR remote k args with
  | inr r => prop "status" r
  | inl _ => None
  end.


Definition timeoutNotice (args : WorkspaceRequest) : Event :=
  ShowErrorMessage ("Timeout waiting for workspace: " +:+ wsId args).


(** The state in which a run enters its polling loop. *)
Definition pollingStart (s1 : State) : State :=
  emit (Report "checking status...") (emit ShowMessageWithCancel s1).

(** The four listing operations and their arguments. *)
Inductive Listing :=
| LOrgs (request : Obj)
| LProjects (request : Obj)
| LRepos (request : Obj)
| LDevEnvs (proj : Obj).

Definition listing (l : Listing) : Completion PagedListing :=
  match l with
  | LOrgs request => Returned (listOrgs remote request)
  | LProjects request => Returned (listProjects remote request)
  | LRepos request => Returned (listRepos remote request)
  | LDevEnvs proj => listDevEnvs remote proj
  end.

(** The page request a listing sends, and the remote's answer to it. *)
Definition pageOperation (l : Listing) (request : Obj) : Operation :=
  match l with
  | LOrgs _ => ListOrganizations request
  | LProjects _ => ListProjects request
  | LRepos _ => ListSourceRepositories request
  | LDevEnvs _ => ListDevelopmentWorkspace request
  end.

Definition pageAnswer (l : Listing) (request : Obj) : Error + Page :=
  match l with
  | LOrgs _ => listOrganizationsR remote request
  | LProjects _ => listProjectsR remote request
  | LRepos _ => listSourceRepositoriesR remote request
  | LDevEnvs _ => listDevelopmentWorkspaceR remote request
  end.

(** The object a listing makes of one summary. *)
Definition resourceOf (l : Listing) : Obj -> Obj :=
  match l with
  | LOrgs _ => asCawsOrg
  | LProjects request => asCawsProject request
  | LRepos request => asCawsRepo request
  | LDevEnvs proj =>
      match nameOf (proj !! "org") with
      | Returned orgName => intoDevelopmentWorkspace orgName (prop "name" proj)
      | Threw _ => id
      end
  end.

(** The cursor after a page fetched with [request] that carries the
    continuation token [tok], if any. *)
Definition cursorAfter (request : Obj) (tok : option string) : option Obj :=
  match tok with
  | Some t => Some (<["nextToken" := VStr t]> request)
  | None => None
  end.

End Observations.

(** ** Scenarios *)

(** A remote whose workspace answers the status fetches from a script
    (and fails once the script is over), accepts every start command,
    knows one user, and serves its listings from the given page
    sources. *)
Definition scripted (statuses : list (Error + Obj)) (ident : option string)
    (orgs devEnvs : Obj -> Error + Page) : Remote :=
  {| verifySessionR := fun _ => inr {| identity := ident |};
     getUserDetailsR := fun _ id =>
       inr {| respUserId := Some id; respUserName := Some "name";
              respDisplayName := Some "display"; respPrimaryEmail := Some "mail";
              respVersion := Some "1" |};
     getDevelopmentWorkspaceR := fun n _ =>
       default (inl (AWSError "ServiceUnavailable")) (statuses !! n);
     startDevelopmentWorkspaceR := fun _ _ => inr ∅;
     listOrganizationsR := orgs;
     listProjectsR := fun _ => inl (AWSError "ServiceUnavailable");
     listSourceRepositoriesR := fun _ => inl (AWSError "ServiceUnavailable");
     listDevelopmentWorkspaceR := devEnvs |}.

Definition unavailable : Obj -> Error + Page :=
  fun _ => inl (AWSError "ServiceUnavailable").

Definition withStatus (status : string) : Error + Obj :=
  inr {[ "status" := VStr status ]}.

Definition someClient (id : option string) : CawsClientInternal :=
  {| regionCode := "us-west-2";
     endpoint := "https://endpoint";
     sdkClient := createCawsClient (Some "token") "us-west-2" "https://endpoint";
     bearerToken := Some "token";
     clientUserId := id;
     userDetails := None |}.

Definition someState (id : option string) : State :=
  {| this := someClient id; clock := 0; trace := [] |}.

Definition someWorkspace : WorkspaceRequest :=
  {| wsId := "ws-1"; organizationName := "org"; projectName := "proj" |}.

(** Two pages of organizations, then a failing fetch. *)
Definition twoPagesThenFailure (request : Obj) : Error + Page :=
  match prop "nextToken" request with
  | None =>
      inr {| items := Some [ {[ "name" := VStr "first" ]} ];
             nextToken := Some "t1" |}
  | Some "t1" =>
      inr {| items := Some [ {[ "name" := VStr "second" ]} ];
             nextToken := Some "t2" |}
  | Some _ => inl (AWSError "ServiceUnavailable")
  end.

(** One page holding one workspace summary: an id and a status, and no
    name, as workspaces have none. *)
Definition oneWorkspace (request : Obj) : Error + Page :=
  inr {| items := Some [ {[ "id" := VStr "ws-1"; "status" := VStr "RUNNING" ]} ];
         nextToken := None |}.

Definition someProject : Obj :=
  {[ "name" := VStr "proj"; "org" := VName (Some "org") ]}.

(** ** The rest of the client *)

(** The configuration [getCawsConfig] returns. *)
Record CawsConfig := {
  cfgRegion : string;
  cfgEndpoint : string;
  cfgHostname : string;
  cfgGitHostname : string
}.

(** [getCawsConfig]; [stage] is the value of the [cawsStage] setting. *)
Definition getCawsConfig (stage : string) : CawsConfig :=
  if bool_decide (stage = "gamma") then
    {| cfgRegion := "us-west-2";
       cfgEndpoint := "https://public.api-gamma.REMOVED.codes";
       cfgHostname := "integ.stage.REMOVED.codes";
       cfgGitHostname := "git.gamma.source.caws.REMOVED" |}
  else
    {| cfgRegion := "us-east-1";
       cfgEndpoint := "https://public.api.REMOVED.codes";
       cfgHostname := "REMOVED.codes";
       cfgGitHostname := "git.service.REMOVED.codes" |}.

(** [createClient]: the region and the endpoint default to those of the
    stage; the new object has neither a user id nor details. *)
Definition createClient (stage : string) (authCookie regionCode endpoint : option string)
  : CawsClientInternal :=
  let regionCode := default (cfgRegion (getCawsConfig stage)) regionCode in
  let endpoint := default (cfgEndpoint (getCawsConfig stage)) endpoint in
  {| regionCode := regionCode;
     endpoint := endpoint;
     sdkClient := createCawsClient authCookie regionCode endpoint;
     bearerToken := authCookie;
     clientUserId := None;
     userDetails := None |}.

(** The fields of the request and of the answer of
    [createDevelopmentWorkspace] that [createDevEnv] reads. *)
Record CreateDevelopmentWorkspaceRequest := {
  ideRuntimes : option (list string);
  createOrganizationName : string;
  createProjectName : string
}.

Record CreateDevelopmentWorkspaceResponse := { createdId : option string }.

(** The answer of [startSessionDevelopmentWorkspace]: its [sessionId] and
    its other properties; and the session [startDevEnvSession] returns,
    whose [sessionId] is a string. *)
Record StartSessionResponse := {
  respSessionId : option string;
  respSession : Obj
}.

Record CawsDevEnvSession := {
  sessionId : string;
  session : Obj
}.

(** The names among [props] that the object [o] lacks. *)
Definition missingProps (props : list string) (o : Obj) : list string :=
  List.filter (fun p => match o !! p with None => true | Some _ => false end) props.

(** [assertHasProps(o, ...props)] on an object. *)
Definition assertObjHasProps (props : list string) (o : Obj) : M Obj :=
  assertHasProps (missingProps props o)
    (match missingProps props o with [] => Some o | _ :: _ => None end).

Definition falsySessionId : Error :=
  JsTypeError ("Received falsy CAWS workspace "
               +:+ String (Ascii.ascii_of_nat 34) "sessionId"
               +:+ String (Ascii.ascii_of_nat 34) "").

Section Lifecycle.

Variable remote : Remote.

(** The requests the SDK client builds for the operations that [Remote]
    and [Operation] do not name are parameters: a request carries the name
    the trace gives it and the remote's answer. *)
Variable sdk_getOrganization : Obj -> Request Obj.
Variable sdk_getProject : Obj -> Request Obj.
Variable sdk_createDevelopmentWorkspace :
  CreateDevelopmentWorkspaceRequest -> Request CreateDevelopmentWorkspaceResponse.
Variable sdk_startSessionDevelopmentWorkspace : Obj -> Request StartSessionResponse.

(** [getOrg]: [{ ...resp, type: 'org' }], the tag written last. *)
Definition getOrg (request : Obj) : M Obj :=
  let* resp := call (sdk_getOrganization request) false None in
  let* resp := assertObjHasProps ["id"; "name"] resp in
  ret (<["type" := VStr "org"]> resp).

(** [getProject]: [{ ...resp, type: 'project', org: { name: ... } }]. *)
Definition getProject (request : Obj) : M Obj :=
  let* resp := call (sdk_getProject request) false None in
  let* resp := assertObjHasProps ["id"; "name"] resp in
  ret (<["org" := VName (prop "organizationName" request)]>
         (<["type" := VStr "project"]> resp)).

Definition createDevEnv (args : CreateDevelopmentWorkspaceRequest) : M Obj :=
  match ideRuntimes args with
  | None | Some [] => throw (JsError "missing ideRuntimes")
  | Some (_ :: _) =>
      let* r := call (sdk_createDevelopmentWorkspace args) false None in
      let* id := assertHasProps ["id"] (createdId r) in
      getDevelopmentWorkspace remote
        {| wsId := id;
           organizationName := createOrganizationName args;
           projectName := createProjectName args |}
  end.

Definition startDevEnvSession (args : Obj) : M CawsDevEnvSession :=
  let* r := call (sdk_startSessionDevelopmentWorkspace args) false None in
  match respSessionId r with
  | Some id =>
      if truthy (Some id) then ret {| sessionId := id; session := respSession r |}
      else throw falsySessionId
  | None => throw falsySessionId
  end.

End Lifecycle.

(** ** More observations *)

(** The status fetches, the start commands and the error messages in the
    trace of a state. *)
Abbreviation gets s := (count isGetDevelopmentWorkspace (trace s)).
Abbreviation starts s := (count isStartDevelopmentWorkspace (trace s)).
Abbreviation notices s := (count isShowErrorMessage (trace s)).

(** The names a listing puts under the spread of a summary. *)
Definition addedProps (l : Listing) : gset string :=
  match l with
  | LOrgs _ => {[ "id"; "type"; "name" ]}
  | LProjects _ => {[ "type"; "id"; "org"; "name" ]}
  | LRepos _ => {[ "type"; "id"; "org"; "project"; "name" ]}
  | LDevEnvs _ => {[ "type"; "org"; "project" ]}
  end.

(** The state after the requests [ops] have been sent one after another. *)
Definition sentAll (ops : list Operation) (s : State) : State :=
  foldl (fun s op => emit (Sent op) s) s ops.

(** A remote like [r] that refuses every user-details request. *)
Definition refusingUserDetails (r : Remote) : Remote :=
  {| verifySessionR := verifySessionR r;
     getUserDetailsR := fun _ _ => inl (AWSError "AccessDenied");
     getDevelopmentWorkspaceR := getDevelopmentWorkspaceR r;
     startDevelopmentWorkspaceR := startDevelopmentWorkspaceR r;
     listOrganizationsR := listOrganizationsR r;
     listProjectsR := listProjectsR r;
     listSourceRepositoriesR := listSourceRepositoriesR r;
     listDevelopmentWorkspaceR := listDevelopmentWorkspaceR r |}.

(** The inner listing of [listResources] at ['project']: the projects of
    the organization object [o]. *)
Definition projectsOfOrg (remote : Remote) (o : Obj) : Completion PagedListing :=
  Returned (listProjects remote (field "organizationName" (prop "name" o))).

(** ** More scenarios *)

(** A request that goes under the name [op] and gets the answer [a]. *)
Definition answering {T} (op : Operation) (a : Error + T) : Request T :=
  {| operation := op; respond := fun _ => a |}.

(** The collection [listResources] returns, collected whole. *)
Definition collected (r : Completion (AnyCollection (list Obj)) * State) (fuel : nat)
  : M (list (list Obj)) :=
  match r.1 with
  | Returned (anyCollection c) => promise c fuel
  | Threw e => throw e
  end.

(** The request [listResources] makes for the projects of an organization
    summary, and the project objects a page of summaries gives. *)
Definition projectsRequest (org : Obj) : Obj :=
  field "organizationName" (prop "name" (asCawsOrg org)).

Definition projectsBatch (projectsOf : Obj -> list Obj) (org : Obj) : list Obj :=
  asCawsProject (projectsRequest org) <$> projectsOf (projectsRequest org).

(** Two organizations on one page, and one project for each. *)
Definition twoOrganizations (request : Obj) : Error + Page :=
  inr {| items := Some [ {[ "name" := VStr "first" ]}; {[ "name" := VStr "second" ]} ];
         nextToken := None |}.

Definition oneProjectEach (request : Obj) : list Obj :=
  [ {[ "name" := VStr "project" ]} ].

Definition projectPages (request : Obj) : Error + Page :=
  inr {| items := Some (oneProjectEach request); nextToken := None |}.

Definition withProjects (projects : Obj -> Error + Page) (r : Remote) : Remote :=
  {| verifySessionR := verifySessionR r;
     getUserDetailsR := getUserDetailsR r;
     getDevelopmentWorkspaceR := getDevelopmentWorkspaceR r;
     startDevelopmentWorkspaceR := startDevelopmentWorkspaceR r;
     listOrganizationsR := listOrganizationsR r;
     listProjectsR := projects;
     listSourceRepositoriesR := listSourceRepositoriesR r;
     listDevelopmentWorkspaceR := listDevelopmentWorkspaceR r |}.

Definition someDetails : UserDetails :=
  {| userId := "u1"; userName := "name"; displayName := "display";
     primaryEmail := "mail"; version := "1" |}.

(** The operations that [Operation] has no name for go, in the scenarios,
    under a listing name that carries the name of the operation. *)
Definition named (operation : string) : Operation :=
  ListOrganizations {[ "operation" := VStr operation ]}.

Definition someCreation (runtimes : option (list string))
  : CreateDevelopmentWorkspaceRequest :=
  {| ideRuntimes := runtimes;
     createOrganizationName := "org";
     createProjectName := "proj" |}.

(** A remote that answers the creation with the id [ws-1]. *)
Definition creating (args : CreateDevelopmentWorkspaceRequest)
  : Request CreateDevelopmentWorkspaceResponse :=
  answering (named "createDevelopmentWorkspace") (inr {| createdId := Some "ws-1" |}).

(** Answers to [getOrganization] and [getProject] that call themselves a
    repository of another organization. *)
Definition mislabelled : Obj :=
  {[ "id" := VStr "1"; "name" := VStr "one"; "type" := VStr "repo";
     "org" := VName (Some "other") ]}.

(** * Properties *)

(** Unfolding the monad's operations in a goal or a hypothesis. *)
Ltac unfold_monad :=
  unfold bind, ret, throw, get, modify, tryCatch, call, never in *; simpl in *.

(** ** Session *)

Section SessionFacts.

Variable remote : Remote.

(** A resolved [verifySession] leaves its result cached on the client. *)
Lemma verifySession_caches s d s' :
  verifySession remote s = (Resolved d, s') -> userDetails (this s') = Some d.
Proof.
  unfold verifySession, getUserDetails, assertHasProps, setUserId, setUserDetails.
  unfold_monad. intros H.
  repeat (case_match; simplify_eq; simpl in *); done.
Qed.

(** With details cached, [verifySession] answers from the cache: it sends
    the identity check and nothing else. *)
Lemma verifySession_cached s d0 d s' :
  userDetails (this s) = Some d0 ->
  verifySession remote s = (Resolved d, s') ->
  d = d0 /\ trace s' = Sent VerifySession :: trace s.
Proof.
  unfold verifySession, getUserDetails, assertHasProps, setUserId, setUserDetails.
  unfold_monad. intros Hc H.
  repeat (case_match; simplify_eq; simpl in *); first [done | split; congruence].
Qed.

(** [verifySession] leaves the bearer token as it is. *)
Lemma verifySession_keeps_token s o s' :
  verifySession remote s = (o, s') -> bearerToken (this s') = bearerToken (this s).
Proof.
  unfold verifySession, getUserDetails, assertHasProps, setUserId, setUserDetails.
  unfold_monad. intros H.
  repeat (case_match; simplify_eq; simpl in *); done.
Qed.

End SessionFacts.

Section SessionClaims.

Variable remote : Remote.

Lemma truthy_nonempty u : u <> "" -> truthy (Some u) = true.
Proof.
  intros Hu. unfold truthy. destruct (String.eqb_spec u ""); [contradiction | done].
Qed.

(** C7 as stated fails on a session whose bound id is the empty string:
    the guard [this.userId && ...] reads the empty string as no id, so a
    response with another identity resolves and overwrites the bound id. *)
Lemma verifySession_empty_id_overwritten :
  let r := scripted [] (Some "u2") unavailable unavailable in
  let s := someState (Some "") in
  clientUserId (this s) = Some ""
  /\ nextVerifyAnswer r s = inr {| identity := Some "u2" |}
  /\ ~ (exists s', verifySession r s = (Rejected mismatchError, s')
                   /\ clientUserId (this s') = clientUserId (this s))
  /\ exists d s', verifySession r s = (Resolved d, s')
                  /\ clientUserId (this s') = Some "u2".
Proof.
  simpl. split; [done |]. split; [done |]. split.
  - intros (s' & H & _). vm_compute in H. discriminate H.
  - eexists _, _. split; [vm_compute; reflexivity | done].
Qed.

(** C7 (amended): with a non-empty user id bound, a response carrying a
    different identity makes [verifySession] throw the identity-mismatch
    error, and the client, its bound id included, is left as it was; and a
    response without the [identity] field makes [verifySession] fail with
    the validation error of [assertHasProps], on any session. *)
Theorem verifySession_identity_checked s :
  (forall u i,
      clientUserId (this s) = Some u -> u <> "" ->
      nextVerifyAnswer remote s = inr {| identity := Some i |} -> i <> u ->
      verifySession remote s = (Rejected mismatchError, emit (Sent VerifySession) s)
      /\ clientUserId (this (emit (Sent VerifySession) s)) = Some u)
  /\ (nextVerifyAnswer remote s = inr {| identity := None |} ->
      verifySession remote s
      = (Rejected (JsError "Properties are missing: identity"),
         emit (Sent VerifySession) s)).
Proof.
  unfold nextVerifyAnswer, verifySession, assertHasProps. split.
  - intros u i Hu Hne Ha Hi. split; [| exact Hu].
    unfold_monad. rewrite Ha. simpl. rewrite Hu, (truthy_nonempty u Hne). simpl.
    rewrite bool_decide_eq_false_2; [done | congruence].
  - intros Ha. unfold_monad. rewrite Ha. done.
Qed.

(** C8 as stated fails on a session that renews its credentials between
    the two calls: [setCredentials] without an id clears the cached details,
    so the second [verifySession], resolving for the same identity, sends
    the user-details request a second time. *)
Lemma verifySession_refetches_after_renewal :
  let r := scripted [] (Some "u1") unavailable unavailable in
  exists d1 s1 s1' d2 s2,
    verifySession r (someState None) = (Resolved d1, s1)
    /\ setCredentials "fresh" None s1 = (Resolved tt, s1')
    /\ verifySession r s1' = (Resolved d2, s2)
    /\ clientUserId (this s1) = Some "u1"
    /\ clientUserId (this s2) = Some "u1"
    /\ count isGetUserDetails (trace s1') = 1
    /\ count isGetUserDetails (trace s2) = 2
    /\ trace s2 <> Sent VerifySession :: trace s1'.
Proof.
  eexists _, _, _, _, _.
  split; [vm_compute; reflexivity |].
  split; [vm_compute; reflexivity |].
  split; [vm_compute; reflexivity |].
  split; [reflexivity |]. split; [reflexivity |].
  split; [reflexivity |]. split; [reflexivity |].
  vm_compute. discriminate.
Qed.

(** C8 (amended): when [verifySession] resolves, and resolves again on a
    later state of the session in which the cached details are the ones the
    first call left, the second call resolves to the very details of the
    first and sends no user-details request: its only request is the
    identity check.  The first call sends at most one user-details request.
    [setCredentials] with an id string keeps the cached details, so such
    calls may come between the two; without an id it clears them, and with
    a details record it replaces them. *)
Theorem verifySession_again_cached s d1 s1 s1' d2 s2 :
  verifySession remote s = (Resolved d1, s1) ->
  userDetails (this s1') = userDetails (this s1) ->
  verifySession remote s1' = (Resolved d2, s2) ->
  (d2 = d1
   /\ trace s2 = Sent VerifySession :: trace s1'
   /\ count isGetUserDetails (trace s2) = count isGetUserDetails (trace s1')
   /\ count isGetUserDetails (trace s1) <= S (count isGetUserDetails (trace s)))
  /\ (forall bearer id,
        userDetails (this (setCredentials bearer (Some (inl id)) s1).2)
        = userDetails (this s1))
  /\ (forall bearer,
        userDetails (this (setCredentials bearer None s1).2) = None)
  /\ (forall bearer d,
        userDetails (this (setCredentials bearer (Some (inr d)) s1).2) = Some d).
Proof.
  intros H1 Hkeep H2.
  pose proof (verifySession_caches remote s d1 s1 H1) as Hc.
  rewrite <- Hkeep in Hc.
  destruct (verifySession_cached remote s1' d1 d2 s2 Hc H2) as [-> Ht].
  split; [| by repeat split].
  split; [done |]. split; [done |]. rewrite Ht. simpl. split; [done |].
  revert H1. clear.
  unfold verifySession, getUserDetails, assertHasProps, setUserId, setUserDetails.
  unfold_monad. intros H.
  repeat (case_match; simplify_eq; simpl in *); lia.
Qed.

(** C10 as stated fails on a session that has the details of one user
    cached and is given the id of another: the [verifySession] that follows
    resolves, binds the new id, and resolves no details: it returns the
    cached record of the first user, which the exposed identity goes on
    to show. *)
Lemma verifySession_after_new_id_keeps_old_details :
  let r := scripted [] (Some "u9") unavailable unavailable in
  let s := (setCredentials "token" (Some (inr someDetails))
              (someState (Some "u1"))).2 in
  exists s' d s2,
    clientIdentity (this s) = Returned ("u1", "name")
    /\ setCredentials "fresh" (Some (inl "u9")) s = (Resolved tt, s')
    /\ verifySession r s' = (Resolved d, s2)
    /\ clientUserId (this s2) = Some "u9"
    /\ d = someDetails
    /\ userDetails (this s2) = Some someDetails
    /\ clientIdentity (this s2) = Returned ("u1", "name")
    /\ connected (this s2) = true
    /\ count isGetUserDetails (trace s2) = 0.
Proof.
  eexists _, _, _.
  split; [reflexivity |].
  split; [vm_compute; reflexivity |].
  split; [vm_compute; reflexivity |].
  repeat split.
Qed.

(** C10 (amended): [setCredentials] with a raw id string replaces the
    bearer token, the transport binding (rebuilt for the new token, the same
    region and endpoint) and the stored user id, and nothing else: the
    cached details, the region, the endpoint, the clock and the trace are as
    before.  So the exposed identity is the one of the earlier details, and
    the connected flag is decided by the new token and by whether details
    were cached before.  A [verifySession] that resolves afterwards does not
    resolve the details anew: with details cached before, it returns that
    record, sends no user-details request, and leaves the cached record, the
    exposed identity and the connected flag as they were. *)
Theorem setCredentials_id_keeps_details s bearer id :
  exists s',
    setCredentials bearer (Some (inl id)) s = (Resolved tt, s')
    /\ bearerToken (this s') = Some bearer
    /\ sdkClient (this s')
       = createCawsClient (Some bearer) (regionCode (this s)) (endpoint (this s))
    /\ clientUserId (this s') = Some id
    /\ userDetails (this s') = userDetails (this s)
    /\ regionCode (this s') = regionCode (this s)
    /\ endpoint (this s') = endpoint (this s)
    /\ clock s' = clock s /\ trace s' = trace s
    /\ clientIdentity (this s') = clientIdentity (this s)
    /\ connected (this s')
       = truthy (Some bearer) && bool_decide (is_Some (userDetails (this s)))
    /\ (forall d0 d s2,
          userDetails (this s) = Some d0 ->
          verifySession remote s' = (Resolved d, s2) ->
          d = d0
          /\ userDetails (this s2) = Some d0
          /\ clientIdentity (this s2) = clientIdentity (this s)
          /\ connected (this s2) = connected (this s')
          /\ trace s2 = Sent VerifySession :: trace s).
Proof.
  eexists. split; [reflexivity |]. simpl.
  do 10 (split; [reflexivity |]).
  intros d0 d s2 Hc H.
  pose proof (verifySession_caches remote _ d s2 H) as Hc2.
  pose proof (verifySession_keeps_token remote _ _ _ H) as Hb.
  destruct (fun Hs' => verifySession_cached remote _ d0 d s2 Hs' H) as [-> Ht];
    [exact Hc |].
  split; [done |]. split; [done |].
  split; [unfold clientIdentity; by rewrite Hc2, Hc |].
  split; [unfold connected; rewrite Hb, Hc2; simpl; by rewrite Hc |].
  exact Ht.
Qed.

End SessionClaims.

(** Once a user id is bound and the remote answers with another
    identity, the session is refused and keeps its id. *)
Lemma verifySession_identity_checked_witness :
  let r := scripted [] (Some "u2") unavailable unavailable in
  let s := someState (Some "u1") in
  verifySession r s = (Rejected mismatchError, emit (Sent VerifySession) s)
  /\ verifySession (scripted [] None unavailable unavailable) s
     = (Rejected (JsError "Properties are missing: identity"),
        emit (Sent VerifySession) s).
Proof.
  split.
  - apply (proj1 (verifySession_identity_checked
                    (scripted [] (Some "u2") unavailable unavailable)
                    (someState (Some "u1"))) "u1" "u2");
      [reflexivity | discriminate | reflexivity | discriminate].
  - apply (proj2 (verifySession_identity_checked
                    (scripted [] None unavailable unavailable)
                    (someState (Some "u1")))).
    reflexivity.
Defined.

(** The credentials are renewed for the same user between the two calls. *)
Lemma verifySession_again_cached_witness :
  let r := scripted [] (Some "u1") unavailable unavailable in
  let s := someState None in
  exists d1 s1 d2 s2,
    verifySession r s = (Resolved d1, s1)
    /\ verifySession r (setCredentials "fresh" (Some (inl "u1")) s1).2
       = (Resolved d2, s2)
    /\ d2 = d1
    /\ count isGetUserDetails (trace s2) = 1.
Proof.
  eexists _, _, _, _.
  split; [vm_compute; reflexivity |].
  split; [vm_compute; reflexivity |].
  split.
  - eapply (proj1 (proj1 (verifySession_again_cached
              (scripted [] (Some "u1") unavailable unavailable) (someState None)
              _ _ _ _ _ eq_refl eq_refl eq_refl))).
  - reflexivity.
Defined.

(** A session with the details of [u1] cached is given the id [u9]. *)
Lemma setCredentials_id_keeps_details_witness :
  let r := scripted [] (Some "u9") unavailable unavailable in
  let s := (setCredentials "token" (Some (inr someDetails))
              (someState (Some "u1"))).2 in
  let s' := (setCredentials "fresh" (Some (inl "u9")) s).2 in
  userDetails (this s) = Some someDetails
  /\ (verifySession r s').1 = Resolved someDetails
  /\ clientIdentity (this (verifySession r s').2) = Returned ("u1", "name").
Proof.
  intros r s s'.
  destruct (setCredentials_id_keeps_details r s "fresh" "u9")
    as (s0 & Hs0 & _ & _ & _ & _ & _ & _ & _ & _ & _ & _ & Hv).
  injection Hs0 as <-.
  destruct (Hv someDetails someDetails (verifySession r s').2 eq_refl)
    as (_ & _ & Hi & _); [reflexivity |].
  split; [reflexivity |]. split; [reflexivity | exact Hi].
Defined.

(** ** Starting a workspace *)

Section OrchestratorFacts.

Variable remote : Remote.
Variable args : WorkspaceRequest.

Lemma getDevelopmentWorkspace_resolved s r :
  nextWorkspaceAnswer remote args s = inr r ->
  getDevelopmentWorkspace remote args s
  = (Resolved (fetched args r), emit (Sent (GetDevelopmentWorkspace args)) s).
Proof.
  unfold nextWorkspaceAnswer, getDevelopmentWorkspace. unfold_monad.
  intros ->. done.
Qed.

Lemma getDevelopmentWorkspace_rejected s e :
  nextWorkspaceAnswer remote args s = inl e ->
  getDevelopmentWorkspace remote args s
  = (Rejected e, emit (Sent (GetDevelopmentWorkspace args)) s).
Proof.
  unfold nextWorkspaceAnswer, getDevelopmentWorkspace. unfold_monad.
  intros ->. done.
Qed.

(** The status of the workspace handed back is the one the remote sent:
    neither the request's fields nor the added ones are called [status]. *)
Lemma fetched_status r : prop "status" (fetched args r) = prop "status" r.
Proof.
  unfold prop, fetched, intoDevelopmentWorkspace, requestObj.
  rewrite !lookup_union, !lookup_insert_ne, !lookup_singleton_ne by done.
  destruct (r !! "status"); done.
Qed.

Variable timeout : Timeout.

(** Once the timeout has completed an iteration does nothing. *)
Lemma pollMde_completed lastStatus s :
  completed timeout (clock s) = true ->
  pollMde remote args timeout lastStatus s = (Resolved (None, lastStatus), s).
Proof. unfold pollMde. unfold_monad. intros ->. done. Qed.


(** A failing status fetch inside the loop is thrown on. *)
Lemma pollMde_fetch_rejected lastStatus s e :
  completed timeout (clock s) = false ->
  nextWorkspaceAnswer remote args s = inl e ->
  pollMde remote args timeout lastStatus s
  = (Rejected e, emit (Sent (GetDevelopmentWorkspace args)) s).
Proof.
  intros Hlive Ha. unfold pollMde, bind at 1, get. rewrite Hlive.
  unfold bind at 1. rewrite (getDevelopmentWorkspace_rejected s e Ha). done.
Qed.

(** STOPPED, not out of STARTING: report, send the start command, go on. *)
Lemma pollMde_stopped lastStatus s r x :
  completed timeout (clock s) = false ->
  nextWorkspaceAnswer remote args s = inr r ->
  prop "status" r = Some "STOPPED" ->
  lastStatus <> Some "STARTING" ->
  startDevelopmentWorkspaceR remote
    (count isStartDevelopmentWorkspace (trace s)) args = inr x ->
  pollMde remote args timeout lastStatus s
  = (Resolved (None, Some "STOPPED"),
     emit (Sent (StartDevelopmentWorkspace args))
       (emit (Report "resuming environment...")
          (emit (Sent (GetDevelopmentWorkspace args)) s))).
Proof.
  intros Hlive Ha Hst Hl Hx. unfold pollMde, bind at 1, get. rewrite Hlive.
  unfold bind at 1. rewrite (getDevelopmentWorkspace_resolved s r Ha).
  rewrite fetched_status, Hst.
  rewrite (bool_decide_eq_false_2 _ Hl). simpl.
  unfold startDevEnv. unfold_monad. rewrite Hx. done.
Qed.

(** STOPPING, not out of STARTING: report and go on. *)
Lemma pollMde_stopping lastStatus s r :
  completed timeout (clock s) = false ->
  nextWorkspaceAnswer remote args s = inr r ->
  prop "status" r = Some "STOPPING" ->
  lastStatus <> Some "STARTING" ->
  pollMde remote args timeout lastStatus s
  = (Resolved (None, Some "STOPPING"),
     emit (Report "waiting for environment to stop...")
       (emit (Sent (GetDevelopmentWorkspace args)) s)).
Proof.
  intros Hlive Ha Hst Hl. unfold pollMde, bind at 1, get. rewrite Hlive.
  unfold bind at 1. rewrite (getDevelopmentWorkspace_resolved s r Ha).
  rewrite fetched_status, Hst.
  rewrite (bool_decide_eq_false_2 _ Hl). done.
Qed.

(** Any status but STOPPED and STOPPING: report; the iteration yields the
    workspace when the status is RUNNING and nothing otherwise. *)
Lemma pollMde_waiting lastStatus s r :
  completed timeout (clock s) = false ->
  nextWorkspaceAnswer remote args s = inr r ->
  prop "status" r <> Some "STOPPED" ->
  prop "status" r <> Some "STOPPING" ->
  pollMde remote args timeout lastStatus s
  = (Resolved (if bool_decide (prop "status" r = Some "RUNNING")
               then Some (fetched args r) else None,
               prop "status" r),
     emit (Report "waiting for environment...")
       (emit (Sent (GetDevelopmentWorkspace args)) s)).
Proof.
  intros Hlive Ha Hst1 Hst2. unfold pollMde, bind at 1, get. rewrite Hlive.
  unfold bind at 1. rewrite (getDevelopmentWorkspace_resolved s r Ha).
  rewrite fetched_status.
  rewrite (bool_decide_eq_false_2 _ Hst1), (bool_decide_eq_false_2 _ Hst2).
  rewrite andb_false_r. done.
Qed.

Lemma pollMde_running lastStatus s r :
  completed timeout (clock s) = false ->
  nextWorkspaceAnswer remote args s = inr r ->
  prop "status" r = Some "RUNNING" ->
  pollMde remote args timeout lastStatus s
  = (Resolved (Some (fetched args r), Some "RUNNING"),
     emit (Report "waiting for environment...")
       (emit (Sent (GetDevelopmentWorkspace args)) s)).
Proof.
  intros Hlive Ha Hst.
  rewrite (pollMde_waiting lastStatus s r Hlive Ha) by (rewrite Hst; done).
  rewrite Hst. done.
Qed.

Lemma pollMde_other lastStatus s r :
  completed timeout (clock s) = false ->
  nextWorkspaceAnswer remote args s = inr r ->
  prop "status" r <> Some "STOPPED" ->
  prop "status" r <> Some "STOPPING" ->
  prop "status" r <> Some "RUNNING" ->
  pollMde remote args timeout lastStatus s
  = (Resolved (None, prop "status" r),
     emit (Report "waiting for environment...")
       (emit (Sent (GetDevelopmentWorkspace args)) s)).
Proof.
  intros Hlive Ha H1 H2 H3.
  rewrite (pollMde_waiting lastStatus s r Hlive Ha H1 H2).
  rewrite (bool_decide_eq_false_2 _ H3). done.
Qed.

(** An iteration that yields nothing is followed by one interval of
    sleep and the rest of the loop; one that yields a value ends it. *)
Lemma waitUntil_next {L A} (fn : L -> M (option A * L)) n l s l' s' :
  fn l s = (Resolved (None, l'), s') ->
  waitUntil fn (S n) l s = waitUntil fn n l' (tick s').
Proof. intros H. simpl. unfold bind at 1. rewrite H. done. Qed.

Lemma waitUntil_found {L A} (fn : L -> M (option A * L)) n l s v l' s' :
  fn l s = (Resolved (Some v, l'), s') ->
  waitUntil fn (S n) l s = (Resolved (Some v), s').
Proof. intros H. simpl. unfold bind at 1. rewrite H. done. Qed.



(** A run that did not return at once is its polling phase. *)
Lemma start_polls status s lastStatus s1 :
  firstFetch remote args status s = (Resolved (inr lastStatus), s1) ->
  startEnvironmentWithProgress remote args status timeout s
  = pollingPhase remote args timeout lastStatus s1.
Proof.
  intros H. unfold startEnvironmentWithProgress, bind. rewrite H. done.
Qed.

(** The polling phase is the race of the loop, entered after the two
    progress events, against the timeout. *)
Lemma pollingPhase_race lastStatus s1 :
  pollingPhase remote args timeout lastStatus s1
  = waitTimeout
      (waitUntil (pollMde remote args timeout)
         (remainingTime timeout (clock s1)) lastStatus)
      timeout
      (modify (emit (timeoutNotice args)) ;; ret None)
      (ret None)
      (pollingStart s1).
Proof. reflexivity. Qed.

Lemma firesAt_le_deadline : firesAt timeout <= deadline timeout.
Proof. unfold firesAt. destruct (cancelAt timeout); lia. Qed.




Lemma live_before_firing now :
  now < firesAt timeout -> completed timeout now = false.
Proof. intros H. unfold completed. apply Nat.leb_gt. exact H. Qed.

(** A promise that settles before the timer fires wins the race. *)
Lemma waitTimeout_settled {A} (promise : M (option A)) onExpire onCancel s r s' :
  promise s = (r, s') -> r <> Pending -> clock s' < firesAt timeout ->
  waitTimeout promise timeout onExpire onCancel s = (r, s').
Proof.
  intros H Hr Hc. unfold waitTimeout. rewrite H.
  apply Nat.ltb_lt in Hc. rewrite Hc. destruct r; done.
Qed.

(** The first fetch when it does not find the target RUNNING: the fetch
    is sent and [lastStatus] is what it observed, nothing if it failed. *)
Lemma firstFetch_polls status s :
  ~ (status = "RUNNING"
     /\ observed remote args (count isGetDevelopmentWorkspace (trace s))
        = Some "RUNNING") ->
  firstFetch remote args status s
  = (Resolved (inr (observed remote args (count isGetDevelopmentWorkspace (trace s)))),
     emit (Sent (GetDevelopmentWorkspace args)) s).
Proof.
  intros Hno. unfold firstFetch, tryCatch, bind, observed in *.
  destruct (getDevelopmentWorkspaceR remote _ args) as [e | r] eqn:Ha.
  - rewrite (getDevelopmentWorkspace_rejected s e Ha). done.
  - rewrite (getDevelopmentWorkspace_resolved s r Ha), fetched_status.
    destruct (bool_decide (status = "RUNNING")) eqn:H1;
      destruct (bool_decide (prop "status" r = Some "RUNNING")) eqn:H2; try done.
    apply bool_decide_eq_true in H1, H2. contradiction Hno. done.
Qed.

(** The first fetch when the target is RUNNING and it finds RUNNING. *)
Lemma firstFetch_running s r :
  nextWorkspaceAnswer remote args s = inr r ->
  prop "status" r = Some "RUNNING" ->
  firstFetch remote args "RUNNING" s
  = (Resolved (inl (fetched args r)), emit (Sent (GetDevelopmentWorkspace args)) s).
Proof.
  intros Ha Hst. unfold firstFetch, tryCatch, bind.
  rewrite (getDevelopmentWorkspace_resolved s r Ha), fetched_status, Hst. done.
Qed.

(** C2 (amended): target RUNNING; the first fetch fails or observes
    neither RUNNING nor STARTING; the three polls that follow observe
    STOPPED, STARTING and RUNNING, the start command is accepted and the
    timeout leaves room for three iterations.  Then the run resolves to the
    workspace of the third poll, whose status is RUNNING, and its trace
    holds exactly one start command, sent on the STOPPED observation. *)
Theorem start_stopped_starting_running s r1 r2 r3 x :
  let g := count isGetDevelopmentWorkspace (trace s) in
  observed remote args g <> Some "RUNNING" ->
  observed remote args g <> Some "STARTING" ->
  getDevelopmentWorkspaceR remote (S g) args = inr r1 ->
  prop "status" r1 = Some "STOPPED" ->
  getDevelopmentWorkspaceR remote (S (S g)) args = inr r2 ->
  prop "status" r2 = Some "STARTING" ->
  getDevelopmentWorkspaceR remote (S (S (S g))) args = inr r3 ->
  prop "status" r3 = Some "RUNNING" ->
  startDevelopmentWorkspaceR remote
    (count isStartDevelopmentWorkspace (trace s)) args = inr x ->
  clock s + 3 <= firesAt timeout ->
  exists s',
    startEnvironmentWithProgress remote args "RUNNING" timeout s
    = (Resolved (Some (fetched args r3)), s')
    /\ prop "status" (fetched args r3) = Some "RUNNING"
    /\ trace s'
       = [ Report "waiting for environment...";
           Sent (GetDevelopmentWorkspace args);
           Report "waiting for environment...";
           Sent (GetDevelopmentWorkspace args);
           Sent (StartDevelopmentWorkspace args);
           Report "resuming environment...";
           Sent (GetDevelopmentWorkspace args);
           Report "checking status...";
           ShowMessageWithCancel;
           Sent (GetDevelopmentWorkspace args) ] ++ trace s
    /\ count isStartDevelopmentWorkspace (trace s')
       = S (count isStartDevelopmentWorkspace (trace s)).
Proof.
  intros g H0r H0s Ha1 Hs1 Ha2 Hs2 Ha3 Hs3 Hx Hroom.
  pose proof firesAt_le_deadline as Hd.
  eexists. split; [| split; [by rewrite fetched_status |]].
  - rewrite (start_polls "RUNNING" s _ _ (firstFetch_polls "RUNNING" s
               (fun H => H0r (proj2 H)))).
    rewrite pollingPhase_race.
    destruct (remainingTime timeout (clock (emit (Sent (GetDevelopmentWorkspace args)) s)))
      as [| [| [| n]]] eqn:Hrounds;
      [unfold remainingTime in Hrounds; simpl in Hrounds; lia ..|].
    set (s1 := pollingStart (emit (Sent (GetDevelopmentWorkspace args)) s)).
    set (s2 := tick (emit (Sent (StartDevelopmentWorkspace args))
                       (emit (Report "resuming environment...")
                          (emit (Sent (GetDevelopmentWorkspace args)) s1)))).
    set (s3 := tick (emit (Report "waiting for environment...")
                       (emit (Sent (GetDevelopmentWorkspace args)) s2))).
    assert (completed timeout (clock s1) = false) as L1
      by (apply live_before_firing; simpl; lia).
    assert (completed timeout (clock s2) = false) as L2
      by (apply live_before_firing; simpl; lia).
    assert (completed timeout (clock s3) = false) as L3
      by (apply live_before_firing; simpl; lia).
    apply waitTimeout_settled; [| done |].
    + rewrite (waitUntil_next _ _ _ _ _ _
                 (pollMde_stopped _ s1 r1 x L1 Ha1 Hs1 H0s Hx)).
      rewrite (waitUntil_next _ _ _ _ _ _
                 (pollMde_other _ s2 r2 L2 Ha2
                    ltac:(by rewrite Hs2) ltac:(by rewrite Hs2) ltac:(by rewrite Hs2))).
      rewrite (waitUntil_found _ _ _ _ _ _ _ (pollMde_running _ s3 r3 L3 Ha3 Hs3)).
      reflexivity.
    + simpl. lia.
  - simpl. done.
Qed.

(** C4: with target RUNNING, when the first fetch answers RUNNING the run
    resolves to that workspace at once, having sent that one fetch and
    nothing else (no further fetch, no start command, no report); and when
    the first fetch fails, nothing is thrown: the run is its polling phase,
    entered with no last status. *)
Theorem start_first_fetch s :
  (forall r,
      nextWorkspaceAnswer remote args s = inr r ->
      prop "status" r = Some "RUNNING" ->
      startEnvironmentWithProgress remote args "RUNNING" timeout s
      = (Resolved (Some (fetched args r)),
         emit (Sent (GetDevelopmentWorkspace args)) s)
      /\ prop "status" (fetched args r) = Some "RUNNING")
  /\ (forall status e,
         nextWorkspaceAnswer remote args s = inl e ->
         startEnvironmentWithProgress remote args status timeout s
         = pollingPhase remote args timeout None
             (emit (Sent (GetDevelopmentWorkspace args)) s)).
Proof.
  split.
  - intros r Ha Hst. split; [| by rewrite fetched_status].
    unfold startEnvironmentWithProgress, bind.
    rewrite (firstFetch_running s r Ha Hst). done.
  - intros status e Ha. apply start_polls.
    unfold firstFetch, tryCatch, bind.
    rewrite (getDevelopmentWorkspace_rejected s e Ha). done.
Qed.

(** The timer wins the race against a loop that is still going when it
    fires. *)
Lemma waitTimeout_fired {A} (promise : M (option A)) onExpire onCancel s r s' :
  promise s = (r, s') -> firesAt timeout <= clock s' ->
  waitTimeout promise timeout onExpire onCancel s
  = match firesAs timeout with
    | Expired => onExpire s'
    | Cancelled => onCancel s'
    end.
Proof.
  intros H Hc. unfold waitTimeout. rewrite H.
  apply Nat.ltb_ge in Hc. rewrite Hc. destruct r; done.
Qed.

Section Quiet.

(** The fetches of the loop have the indexes above [lo] and below [hi].
    Each of them answers, with a status other than RUNNING; no status
    STARTING is followed by STOPPED or STOPPING; start commands are
    accepted. *)
Variables lo hi : nat.
Hypothesis fetches_answer :
  forall j, lo < j < hi ->
    exists r, getDevelopmentWorkspaceR remote j args = inr r
              /\ prop "status" r <> Some "RUNNING".
Hypothesis no_regression :
  forall j, lo <= j -> S j < hi ->
    observed remote args j = Some "STARTING" ->
    observed remote args (S j) <> Some "STOPPED"
    /\ observed remote args (S j) <> Some "STOPPING".
Hypothesis starts_accepted :
  forall j, exists x, startDevelopmentWorkspaceR remote j args = inr x.

Lemma quiet_iteration s k :
  count isGetDevelopmentWorkspace (trace s) = S k ->
  lo <= k -> S k < hi ->
  completed timeout (clock s) = false ->
  exists s',
    pollMde remote args timeout (observed remote args k) s
    = (Resolved (None, observed remote args (S k)), s')
    /\ clock s' = clock s
    /\ count isGetDevelopmentWorkspace (trace s') = S (S k)
    /\ count isShowErrorMessage (trace s') = count isShowErrorMessage (trace s).
Proof.
  intros Hk Hlo Hhi Hlive.
  destruct (fetches_answer (S k) ltac:(lia)) as (r & Ha & Hrun).
  pose proof (no_regression k Hlo Hhi) as Hreg.
  assert (observed remote args (S k) = prop "status" r) as Hobs
    by (unfold observed; rewrite Ha; done).
  rewrite Hobs in *.
  assert (nextWorkspaceAnswer remote args s = inr r) as Hnext
    by (unfold nextWorkspaceAnswer; rewrite Hk; done).
  destruct (decide (prop "status" r = Some "STOPPED")) as [Hst | Hst].
  - destruct (starts_accepted (count isStartDevelopmentWorkspace (trace s)))
      as [x Hx].
    eexists. rewrite Hst. split.
    + apply (pollMde_stopped _ s r x Hlive Hnext Hst). 2: exact Hx.
      intros Hl. destruct (Hreg Hl). congruence.
    + simpl. rewrite Hk. done.
  - destruct (decide (prop "status" r = Some "STOPPING")) as [Hsg | Hsg].
    + eexists. rewrite Hsg. split.
      * apply (pollMde_stopping _ s r Hlive Hnext Hsg).
        intros Hl. destruct (Hreg Hl). congruence.
      * simpl. rewrite Hk. done.
    + eexists. split.
      * apply (pollMde_other _ s r Hlive Hnext Hst Hsg Hrun).
      * simpl. rewrite Hk. done.
Qed.

(** Under these hypotheses the loop runs out its rounds: it resolves to
    nothing after [n] intervals and shows no error message. *)
Lemma quiet_loop n : forall s k,
  count isGetDevelopmentWorkspace (trace s) = S k ->
  lo <= k -> S k + (firesAt timeout - clock s) <= hi ->
  exists s',
    waitUntil (pollMde remote args timeout) n (observed remote args k) s
    = (Resolved None, s')
    /\ clock s' = clock s + n
    /\ count isShowErrorMessage (trace s') = count isShowErrorMessage (trace s).
Proof.
  induction n as [| n IH]; intros s k Hk Hlo Hhi.
  - exists s. simpl. unfold ret. repeat split; lia.
  - destruct (completed timeout (clock s)) eqn:Hlive.
    + rewrite (waitUntil_next _ _ _ _ _ _ (pollMde_completed _ s Hlive)).
      destruct (IH (tick s) k Hk Hlo ltac:(simpl; lia)) as (s' & -> & Hc & He).
      exists s'. simpl in Hc. repeat split; [lia | done].
    + assert (clock s < firesAt timeout) as Hlt
        by (unfold completed in Hlive; apply Nat.leb_gt in Hlive; exact Hlive).
      destruct (quiet_iteration s k Hk Hlo ltac:(lia) Hlive)
        as (s1 & Hstep & Hc1 & Hg1 & He1).
      rewrite (waitUntil_next _ _ _ _ _ _ Hstep).
      destruct (IH (tick s1) (S k) Hg1 ltac:(lia) ltac:(simpl; lia))
        as (s' & -> & Hc & He).
      exists s'. simpl in Hc, He. repeat split; [lia | congruence].
Qed.

End Quiet.

(** C3 (amended): a run whose first fetch does not find the target
    RUNNING, whose every status fetch in the loop answers with a status
    other than RUNNING, that meets no STARTING followed by STOPPED or
    STOPPING and whose start commands are accepted, resolves to undefined.
    When the timeout expired the error notification is the last thing the
    run did, and it is the only one; when the user cancelled, no error
    notification was shown. *)
Theorem start_without_running_is_undefined status s :
  let g := count isGetDevelopmentWorkspace (trace s) in
  let hi := S g + (firesAt timeout - clock s) in
  ~ (status = "RUNNING" /\ observed remote args g = Some "RUNNING") ->
  (forall j, g < j < hi ->
     exists r, getDevelopmentWorkspaceR remote j args = inr r
               /\ prop "status" r <> Some "RUNNING") ->
  (forall j, g <= j -> S j < hi ->
     observed remote args j = Some "STARTING" ->
     observed remote args (S j) <> Some "STOPPED"
     /\ observed remote args (S j) <> Some "STOPPING") ->
  (forall j, exists x, startDevelopmentWorkspaceR remote j args = inr x) ->
  exists s',
    startEnvironmentWithProgress remote args status timeout s = (Resolved None, s')
    /\ (firesAs timeout = Expired ->
        exists tr, trace s' = timeoutNotice args :: tr
                   /\ count isShowErrorMessage tr
                      = count isShowErrorMessage (trace s))
    /\ (firesAs timeout = Cancelled ->
        count isShowErrorMessage (trace s') = count isShowErrorMessage (trace s)).
Proof.
  intros g hi Hfirst Hfetch Hreg Hstart.
  rewrite (start_polls status s _ _ (firstFetch_polls status s Hfirst)).
  rewrite pollingPhase_race.
  set (s1 := pollingStart (emit (Sent (GetDevelopmentWorkspace args)) s)).
  destruct (quiet_loop g hi Hfetch Hreg Hstart
              (remainingTime timeout (clock (emit (Sent (GetDevelopmentWorkspace args)) s)))
              s1 g eq_refl (le_n g) (le_n hi))
    as (s2 & Hloop & Hclock & Herr).
  pose proof firesAt_le_deadline as Hd.
  rewrite (waitTimeout_fired _ _ _ _ _ _ Hloop)
    by (rewrite Hclock; unfold remainingTime; simpl; lia).
  simpl in Herr. destruct (firesAs timeout).
  - eexists. split; [reflexivity |]. split; [| done].
    intros _. exists (trace s2). done.
  - exists s2. split; [reflexivity |]. split; done.
Qed.

End OrchestratorFacts.


(** C3 as stated fails on a run whose status fetch inside the loop is
    refused by the remote: it saw STARTING once and then nothing, neither
    RUNNING nor a regression, and yet it is rejected, with the remote's
    error. *)
Lemma start_fetch_error_is_thrown :
  let r := scripted [withStatus "STARTING"] None unavailable unavailable in
  let run := startEnvironmentWithProgress r someWorkspace "RUNNING" (newTimeout 0)
               (someState None) in
  observed r someWorkspace 0 = Some "STARTING"
  /\ observed r someWorkspace 1 = None
  /\ count isGetDevelopmentWorkspace (trace run.2) = 2
  /\ run.1 = Rejected (AWSError "ServiceUnavailable")
  /\ run.1 <> Resolved None.
Proof. vm_compute. repeat split; done. Qed.

(** The workspace stays STARTING until the timeout of three intervals
    expires. *)
Lemma start_without_running_is_undefined_witness :
  let r := scripted (replicate 4 (withStatus "STARTING")) None unavailable unavailable in
  exists s',
    startEnvironmentWithProgress r someWorkspace "RUNNING"
      {| deadline := 3; cancelAt := None |} (someState None)
    = (Resolved None, s')
    /\ exists tr, trace s' = timeoutNotice someWorkspace :: tr
                  /\ count isShowErrorMessage tr = 0.
Proof.
  intros r.
  destruct (start_without_running_is_undefined r someWorkspace
              {| deadline := 3; cancelAt := None |} "RUNNING" (someState None))
    as (s' & Hrun & Hexp & _).
  - vm_compute. intros [_ H]. discriminate H.
  - intros j Hj. vm_compute in Hj.
    assert (j = 1 \/ j = 2 \/ j = 3) as [-> | [-> | ->]] by lia;
      (eexists; split; [reflexivity | vm_compute; discriminate]).
  - intros j _ Hj _. vm_compute in Hj.
    assert (j = 0 \/ j = 1 \/ j = 2) as [-> | [-> | ->]] by lia;
      vm_compute; split; discriminate.
  - intros j. eexists. reflexivity.
  - exists s'. split; [exact Hrun | apply Hexp; reflexivity].
Defined.

(** C2 as stated fails when the three observations are the run's three
    status fetches: the first of them is the fetch before the loop, which
    only records STOPPED, so the loop sees STARTING and then RUNNING, and
    the run returns the running workspace without any start command. *)
Lemma start_three_fetches_no_start_command :
  let r := scripted [withStatus "STOPPED"; withStatus "STARTING"; withStatus "RUNNING"]
             None unavailable unavailable in
  let run := startEnvironmentWithProgress r someWorkspace "RUNNING" (newTimeout 0)
               (someState None) in
  observed r someWorkspace 0 = Some "STOPPED"
  /\ observed r someWorkspace 1 = Some "STARTING"
  /\ observed r someWorkspace 2 = Some "RUNNING"
  /\ count isGetDevelopmentWorkspace (trace run.2) = 3
  /\ (exists ws, run.1 = Resolved (Some ws) /\ prop "status" ws = Some "RUNNING")
  /\ count isStartDevelopmentWorkspace (trace run.2) = 0
  /\ count isStartDevelopmentWorkspace (trace run.2) <> 1.
Proof.
  repeat split; try (vm_compute; done).
  eexists. split; vm_compute; reflexivity.
Qed.

(** The first fetch and the first poll both observe STOPPED. *)
Lemma start_stopped_starting_running_witness :
  let r := scripted [withStatus "STOPPED"; withStatus "STOPPED";
                     withStatus "STARTING"; withStatus "RUNNING"]
             None unavailable unavailable in
  exists ws s',
    startEnvironmentWithProgress r someWorkspace "RUNNING" (newTimeout 0)
      (someState None)
    = (Resolved (Some ws), s')
    /\ prop "status" ws = Some "RUNNING"
    /\ count isStartDevelopmentWorkspace (trace s') = 1.
Proof.
  intros r.
  destruct (start_stopped_starting_running r someWorkspace (newTimeout 0)
              (someState None)
              {[ "status" := VStr "STOPPED" ]} {[ "status" := VStr "STARTING" ]}
              {[ "status" := VStr "RUNNING" ]} ∅)
    as (s' & Hrun & Hst & _ & Hcount);
    [vm_compute; discriminate | vm_compute; discriminate
    | reflexivity | reflexivity | reflexivity | reflexivity
    | reflexivity | reflexivity | reflexivity | vm_compute; lia |].
  eexists _, s'. split; [exact Hrun |]. split; [exact Hst | exact Hcount].
Defined.

(** A workspace that is already running; and a remote that refuses the
    first fetch and then reports RUNNING, which the first poll returns. *)
Lemma start_first_fetch_witness :
  startEnvironmentWithProgress
    (scripted [withStatus "RUNNING"] None unavailable unavailable)
    someWorkspace "RUNNING" (newTimeout 0) (someState None)
  = (Resolved (Some (fetched someWorkspace {[ "status" := VStr "RUNNING" ]})),
     emit (Sent (GetDevelopmentWorkspace someWorkspace)) (someState None))
  /\ (startEnvironmentWithProgress
        (scripted [inl (AWSError "Throttled"); withStatus "RUNNING"]
           None unavailable unavailable)
        someWorkspace "RUNNING" (newTimeout 0) (someState None)).1
     = Resolved (Some (fetched someWorkspace {[ "status" := VStr "RUNNING" ]})).
Proof.
  split.
  - apply (proj1 (start_first_fetch
                    (scripted [withStatus "RUNNING"] None unavailable unavailable)
                    someWorkspace (newTimeout 0) (someState None))
             {[ "status" := VStr "RUNNING" ]}); reflexivity.
  - rewrite (proj2 (start_first_fetch
                      (scripted [inl (AWSError "Throttled"); withStatus "RUNNING"]
                         None unavailable unavailable)
                      someWorkspace (newTimeout 0) (someState None))
               "RUNNING" (AWSError "Throttled") eq_refl).
    reflexivity.
Defined.

(** ** Listings *)

Section ListingFacts.

Variable remote : Remote.

(** Batches already pulled stay in front of whatever the rest of the
    sequence gives. *)
Lemma drain_after_pull {C T} (c : AsyncCollection C T) k : forall n cur s bs cur' s',
  pull c k cur s = (Resolved (bs, Some cur'), s') ->
  drain c (k + n) cur s
  = match drain c n cur' s' with
    | (Resolved vs, s'') => (Resolved (bs ++ vs), s'')
    | (Rejected e, s'') => (Rejected e, s'')
    | (Pending, s'') => (Pending, s'')
    end.
Proof.
  induction k as [| k IH]; intros n cur s bs cur' s' Hpull.
  - simpl in *. unfold ret in Hpull. simplify_eq.
    by destruct (drain c n cur' s') as [[] ?].
  - simpl in *. unfold bind in *.
    destruct (next c cur s) as [[[[v cur1] |] | e |] s1]; unfold_monad; try done.
    destruct (pull c k cur1 s1) as [[[bs1 o] | e |] s2] eqn:Hp; simpl in *; try done.
    simplify_eq. rewrite (IH n cur1 s1 bs1 cur' s' Hp).
    by destruct (drain c n cur' s') as [[] ?].
Qed.

(** One pull of a listing whose page fetch answers. *)
Lemma listing_step l c request summaries tok s :
  listing remote l = Returned c ->
  pageAnswer remote l request = inr {| items := Some summaries; nextToken := tok |} ->
  next c (Some request) s
  = (Resolved (Some (resourceOf l <$> summaries, cursorAfter request tok)),
     emit (Sent (pageOperation l request)) s).
Proof.
  intros Hc Ha. destruct l; simpl in Hc, Ha; unfold listDevEnvs in Hc; simpl;
    [| | | destruct (nameOf (proj !! "org"))]; simplify_eq;
    simpl; unfold_monad; rewrite Ha; simpl; by destruct tok.
Qed.

(** One pull of a listing whose page fetch fails. *)
Lemma listing_step_failed l c request e s :
  listing remote l = Returned c ->
  pageAnswer remote l request = inl e ->
  next c (Some request) s
  = (Resolved (Some ([], None)), emit (Sent (pageOperation l request)) s).
Proof.
  intros Hc Ha. destruct l; simpl in Hc, Ha; unfold listDevEnvs in Hc;
    [| | | destruct (nameOf (proj !! "org"))]; simplify_eq;
    simpl; unfold_monad; rewrite Ha; done.
Qed.

Lemma listing_exhausted l c s :
  listing remote l = Returned c -> next c None s = (Resolved None, s).
Proof.
  intros Hc. destruct l; simpl in Hc; unfold listDevEnvs in Hc;
    [| | | destruct (nameOf (proj !! "org"))]; simplify_eq; done.
Qed.

(** C5: for each of the four listings, a page fetch that the remote
    refuses is not thrown to the consumer.  The pull that made the request
    resolves, with the empty batch of the substituted page and with no
    request left to send, so the next pull finds the sequence over; and a
    consumer that had pulled the batches [bs] before gets, collecting the
    whole sequence, exactly [bs] followed by that empty batch. *)
Theorem listing_fails_soft l c request e :
  listing remote l = Returned c ->
  pageAnswer remote l request = inl e ->
  (forall s,
      next c (Some request) s
      = (Resolved (Some ([], None)), emit (Sent (pageOperation l request)) s))
  /\ (forall s, next c None s = (Resolved None, s))
  /\ (forall k fuel s0 bs s,
        pull c k (start c) s0 = (Resolved (bs, Some (Some request)), s) ->
        promise c (k + S (S fuel)) s0
        = (Resolved (bs ++ [[]]), emit (Sent (pageOperation l request)) s)).
Proof.
  intros Hc Ha. split; [| split].
  - intros s. exact (listing_step_failed l c request e s Hc Ha).
  - intros s. exact (listing_exhausted l c s Hc).
  - intros k fuel s0 bs s Hpull. unfold promise.
    rewrite (drain_after_pull c k _ _ _ _ _ _ Hpull).
    assert (drain c (S (S fuel)) (Some request) s
            = (Resolved [[]], emit (Sent (pageOperation l request)) s)) as ->; [| done].
    simpl. unfold bind. rewrite (listing_step_failed l c request e s Hc Ha).
    simpl. rewrite (listing_exhausted l c _ Hc). done.
Qed.

(** What the spread of a summary [s] over defaults gives at a key that
    [s] lacks. *)
Lemma spread_default (s defaults : Obj) key :
  s !! key = None -> (s ∪ defaults) !! key = defaults !! key.
Proof. intros H. rewrite lookup_union, H. by destruct (defaults !! key). Qed.

Lemma spread_own (s defaults : Obj) key :
  defaults !! key = None -> (s ∪ defaults) !! key = s !! key.
Proof. intros H. rewrite lookup_union, H. by destruct (s !! key). Qed.

(** C6 (amended): the objects made of organization, project and
    repository summaries have the id [""] when the summary has no id and
    the name ["unknown"] when it has no name; the object made of a
    workspace summary has the id and the name of the summary, missing when
    they are missing there.  No listing fails on a summary: a fetched page
    of summaries, whatever their fields, is yielded as the batch of their
    objects. *)
Theorem summaries_into_resources :
  (forall s,
      (s !! "id" = None -> asCawsOrg s !! "id" = Some (VStr ""))
      /\ (s !! "name" = None -> asCawsOrg s !! "name" = Some (VStr "unknown")))
  /\ (forall request s,
        (s !! "id" = None -> asCawsProject request s !! "id" = Some (VStr ""))
        /\ (s !! "name" = None ->
            asCawsProject request s !! "name" = Some (VStr "unknown")))
  /\ (forall request s,
        (s !! "id" = None -> asCawsRepo request s !! "id" = Some (VStr ""))
        /\ (s !! "name" = None ->
            asCawsRepo request s !! "name" = Some (VStr "unknown")))
  /\ (forall org proj s,
        intoDevelopmentWorkspace org proj s !! "id" = s !! "id"
        /\ intoDevelopmentWorkspace org proj s !! "name" = s !! "name")
  /\ (forall l c request summaries tok s,
        listing remote l = Returned c ->
        pageAnswer remote l request
        = inr {| items := Some summaries; nextToken := tok |} ->
        next c (Some request) s
        = (Resolved (Some (resourceOf l <$> summaries, cursorAfter request tok)),
           emit (Sent (pageOperation l request)) s)).
Proof.
  repeat split.
  - intros H. unfold asCawsOrg. by rewrite (spread_default _ _ _ H).
  - intros H. unfold asCawsOrg. rewrite (spread_default _ _ _ H), H. done.
  - intros H. unfold asCawsProject. by rewrite (spread_default _ _ _ H).
  - intros H. unfold asCawsProject. rewrite (spread_default _ _ _ H), H. done.
  - intros H. unfold asCawsRepo. by rewrite (spread_default _ _ _ H).
  - intros H. unfold asCawsRepo. rewrite (spread_default _ _ _ H), H. done.
  - unfold intoDevelopmentWorkspace. by rewrite spread_own.
  - unfold intoDevelopmentWorkspace. by rewrite spread_own.
  - intros l c request summaries tok s Hc Ha.
    exact (listing_step l c request summaries tok s Hc Ha).
Qed.

(** C9: [listResources] at ['branch'] throws the not-supported error and
    leaves the state as it found it: no request has been sent and nothing
    is returned, whatever the fuel and the state. *)
Theorem listResources_branch_not_supported fuel s :
  listResources remote fuel TBranch s
  = (Threw (JsError "Listing branches is not currently supported"), s).
Proof. reflexivity. Qed.

End ListingFacts.

(** The page source gives two pages and then fails: the listing yields the
    two batches and an empty one, and ends. *)
Lemma listing_fails_soft_witness :
  let r := scripted [] None twoPagesThenFailure unavailable in
  exists s',
    promise (listOrgs r ∅) 4 (someState None)
    = (Resolved [ [ asCawsOrg {[ "name" := VStr "first" ]} ];
                  [ asCawsOrg {[ "name" := VStr "second" ]} ];
                  [] ], s')
    /\ length (trace s') = 3.
Proof.
  intros r. eexists. split.
  - refine (proj2 (proj2 (listing_fails_soft r (LOrgs ∅) (listOrgs r ∅)
                            {[ "nextToken" := VStr "t2" ]}
                            (AWSError "ServiceUnavailable") eq_refl eq_refl))
              2 0 (someState None)
              [ [ asCawsOrg {[ "name" := VStr "first" ]} ];
                [ asCawsOrg {[ "name" := VStr "second" ]} ] ] _ _).
    vm_compute. reflexivity.
  - reflexivity.
Defined.

(** C6 as stated fails for workspaces: [listDevEnvs] spreads the summary
    over the type and the two back references only, so a workspace summary,
    which has no name, gives a workspace without a name, not one named
    ["unknown"]. *)
Lemma listDevEnvs_adds_no_defaults :
  let r := scripted [] None unavailable oneWorkspace in
  exists c ws s',
    listDevEnvs r someProject = Returned c
    /\ promise c 2 (someState None) = (Resolved [[ws]], s')
    /\ ws !! "id" = Some (VStr "ws-1")
    /\ ws !! "name" = None
    /\ ws !! "name" <> Some (VStr "unknown").
Proof.
  intros r. eexists _, _, _. split; [reflexivity |].
  split; [vm_compute; reflexivity |].
  split; [reflexivity |]. split; [reflexivity |].
  intros H. vm_compute in H. discriminate H.
Qed.

(** A page of one organization summary without id and name. *)
Lemma summaries_into_resources_witness :
  let r := scripted [] None (fun _ => inr {| items := Some [∅]; nextToken := None |})
             unavailable in
  asCawsOrg ∅ !! "id" = Some (VStr "")
  /\ asCawsOrg ∅ !! "name" = Some (VStr "unknown")
  /\ next (listOrgs r ∅) (Some ∅) (someState None)
     = (Resolved (Some ([asCawsOrg ∅], None)),
        emit (Sent (ListOrganizations ∅)) (someState None)).
Proof.
  intros r.
  destruct (summaries_into_resources r) as (Horg & _ & _ & _ & Hstep).
  destruct (Horg ∅) as [Hid Hname].
  split; [apply Hid; reflexivity |]. split; [apply Hname; reflexivity |].
  apply (Hstep (LOrgs ∅) (listOrgs r ∅) ∅ [∅] None (someState None)); reflexivity.
Defined.

(** * Further properties *)

(** ** The session: getters, credentials and verification *)

Lemma truthy_true_nonempty o :
  truthy o = true -> exists t, o = Some t /\ t <> "".
Proof.
  destruct o as [t |]; [| done]. simpl. intros H. exists t. split; [done |].
  intros ->. done.
Qed.

Lemma truthy_false_empty o : truthy o = false -> o = None \/ o = Some "".
Proof.
  destruct o as [t |]; [| by left]. simpl. intros H. right.
  destruct (String.eqb_spec t ""); [by subst | done].
Qed.

(** X1: the getters agree.  When [connected] holds there is a non-empty
    bearer token, which [token] returns, and there are details, whose id
    and name [identity] returns; when it does not hold [token] throws, and
    either the token is missing or empty or the details are missing. *)
Theorem getters_agree c :
  if connected c
  then exists t d,
         bearerToken c = Some t /\ t <> "" /\ userDetails c = Some d
         /\ token c = Returned (Some t)
         /\ clientIdentity c = Returned (userId d, userName d)
  else token c = Threw (JsError "CAWS client is not connected")
       /\ (bearerToken c = None \/ bearerToken c = Some "" \/ userDetails c = None).
Proof.
  unfold token, clientIdentity. destruct (connected c) eqn:Hc; unfold connected in Hc.
  - apply andb_true_iff in Hc as [Ht Hd].
    apply truthy_true_nonempty in Ht as (t & Ht & Hne).
    apply bool_decide_eq_true in Hd as [d Hd].
    exists t, d. rewrite Ht, Hd. done.
  - split; [done |]. apply andb_false_iff in Hc as [Ht | Hd].
    + apply truthy_false_empty in Ht as [-> | ->]; auto.
    + apply bool_decide_eq_false in Hd. right. right.
      destruct (userDetails c); [| done]. contradiction Hd. by eexists.
Qed.

Section SessionMore.

Variable remote : Remote.

(** X2: [setCredentials] with a details record installs the record and
    leaves the stored user id alone.  The client then shows the identity of
    the record and is connected when the token is not empty; but with a
    non-empty id bound before, a following [verifySession] that is answered
    with another identity is refused, whatever the id of the record,
    even the very identity the remote answers with. *)
Theorem setCredentials_details_keep_bound_id s bearer d u i :
  clientUserId (this s) = Some u -> u <> "" ->
  nextVerifyAnswer remote s = inr {| identity := Some i |} -> i <> u ->
  exists s1,
    setCredentials bearer (Some (inr d)) s = (Resolved tt, s1)
    /\ clientIdentity (this s1) = Returned (userId d, userName d)
    /\ connected (this s1) = truthy (Some bearer)
    /\ clientUserId (this s1) = Some u
    /\ verifySession remote s1 = (Rejected mismatchError, emit (Sent VerifySession) s1).
Proof.
  intros Hu Hne Ha Hi. eexists. split; [reflexivity |].
  split; [reflexivity |].
  split; [unfold connected; simpl; by destruct (String.eqb bearer "") |].
  split; [exact Hu |].
  unfold nextVerifyAnswer in Ha.
  unfold verifySession, assertHasProps. unfold_monad. rewrite Ha. simpl.
  rewrite Hu, (truthy_nonempty u Hne). simpl.
  rewrite bool_decide_eq_false_2; [done | congruence].
Qed.

(** X3: [setCredentials] without a second argument forgets the cached
    details and keeps the stored user id: the client is not connected and
    [identity] throws.  A following [verifySession] that resolves has sent
    the identity check and then a user-details request for the identity
    the remote answered with. *)
Theorem setCredentials_alone_forgets_details s bearer :
  exists s1,
    setCredentials bearer None s = (Resolved tt, s1)
    /\ userDetails (this s1) = None
    /\ connected (this s1) = false
    /\ clientIdentity (this s1) = Threw (JsError "CAWS client is not connected")
    /\ clientUserId (this s1) = clientUserId (this s)
    /\ trace s1 = trace s
    /\ forall d s2,
         verifySession remote s1 = (Resolved d, s2) ->
         exists i,
           nextVerifyAnswer remote s = inr {| identity := Some i |}
           /\ trace s2 = Sent (GetUserDetails i) :: Sent VerifySession :: trace s.
Proof.
  eexists. split; [reflexivity |]. simpl.
  split; [done |].
  split; [unfold connected; simpl; by destruct (String.eqb bearer "") |].
  split; [done |]. split; [done |]. split; [done |].
  intros d s2.
  unfold nextVerifyAnswer, verifySession, getUserDetails, assertHasProps, setUserId,
    setUserDetails.
  unfold_monad. intros H.
  destruct (verifySessionR remote _) as [e | [[i |]]]; simpl in *; [done | | done].
  exists i. split; [done |].
  repeat (case_match; simplify_eq; simpl in *); done.
Qed.

(** X4: a rejected [verifySession] never changes the cached details, the
    token or the transport.  The stored user id is as before too, unless
    the identity had been accepted and it is the user-details step that
    failed: then no details are cached and the id is already the identity
    the remote answered with. *)
Theorem verifySession_rejected_keeps_details s e s' :
  verifySession remote s = (Rejected e, s') ->
  userDetails (this s') = userDetails (this s)
  /\ bearerToken (this s') = bearerToken (this s)
  /\ sdkClient (this s') = sdkClient (this s)
  /\ (clientUserId (this s') = clientUserId (this s)
      \/ (userDetails (this s) = None
          /\ exists i, nextVerifyAnswer remote s = inr {| identity := Some i |}
                       /\ clientUserId (this s') = Some i
                       /\ trace s' = Sent (GetUserDetails i) :: Sent VerifySession
                                       :: trace s)).
Proof.
  unfold nextVerifyAnswer, verifySession, getUserDetails, assertHasProps, setUserId,
    setUserDetails.
  unfold_monad. intros H.
  destruct (verifySessionR remote _) as [e0 | [[i |]]]; simpl in *;
    [simplify_eq; simpl; auto | | simplify_eq; simpl; auto].
  repeat (case_match; simplify_eq; simpl in *);
    repeat split; try done; first [by left | right; split; [done | by exists i]].
Qed.

(** X5: a resolved [verifySession] has bound the stored user id to the
    identity the remote answered with and has cached the details it
    returns; the token and the transport are as before, so the client is
    connected exactly when its token is not empty.  When no details were
    cached the details come from one user-details request for that
    identity and carry the version ["1"]. *)
Theorem verifySession_resolved_binds s d s' :
  verifySession remote s = (Resolved d, s') ->
  exists i,
    nextVerifyAnswer remote s = inr {| identity := Some i |}
    /\ clientUserId (this s') = Some i
    /\ userDetails (this s') = Some d
    /\ bearerToken (this s') = bearerToken (this s)
    /\ sdkClient (this s') = sdkClient (this s)
    /\ connected (this s') = truthy (bearerToken (this s))
    /\ (userDetails (this s) = None ->
        version d = "1"
        /\ trace s' = Sent (GetUserDetails i) :: Sent VerifySession :: trace s).
Proof.
  unfold nextVerifyAnswer, verifySession, getUserDetails, assertHasProps, setUserId,
    setUserDetails, requiredDetails, connected.
  unfold_monad. intros H.
  destruct (verifySessionR remote _) as [e0 | [[i |]]]; simpl in *; [done | | done].
  exists i. split; [done |].
  repeat (case_match; simplify_eq; simpl in *);
    rewrite ?andb_true_r; repeat split; try done.
  all: match goal with H : bool_decide _ = true |- _ =>
         apply bool_decide_eq_true in H; rewrite H end.
  all: done.
Qed.

End SessionMore.

(** ** Starting a workspace: what every run keeps *)

Section OrchestratorMore.

Variable remote : Remote.
Variable args : WorkspaceRequest.
Variable timeout : Timeout.

(** What one iteration does, whatever the remote answers: it takes no
    time, leaves the client alone, shows no error message, sends at most
    one status fetch and no start command without a fetch; it does nothing
    at all once the timeout has completed; it yields a workspace only when
    that workspace is RUNNING; and it settles. *)
Lemma pollMde_effects lastStatus s r s' :
  pollMde remote args timeout lastStatus s = (r, s') ->
  clock s' = clock s
  /\ this s' = this s
  /\ notices s' = notices s
  /\ gets s <= gets s' <= S (gets s)
  /\ starts s <= starts s'
  /\ starts s' + gets s <= starts s + gets s'
  /\ (completed timeout (clock s) = true -> s' = s)
  /\ (forall v l, r = Resolved (Some v, l) -> prop "status" v = Some "RUNNING")
  /\ r <> Pending.
Proof.
  unfold pollMde, getDevelopmentWorkspace, startDevEnv, report. unfold_monad.
  intros H.
  repeat (case_match; simplify_eq; simpl in *);
    repeat split; try done; try lia.
  all: intros v l [= <- <-].
  all: match goal with H : bool_decide _ = true |- _ =>
         apply bool_decide_eq_true in H; exact H end.
Qed.

(** The same for the whole loop; the status fetches it sends are at most
    one per interval left before the timer fires. *)
Lemma waitUntil_effects n : forall lastStatus s r s',
  waitUntil (pollMde remote args timeout) n lastStatus s = (r, s') ->
  clock s <= clock s'
  /\ this s' = this s
  /\ notices s' = notices s
  /\ gets s <= gets s'
  /\ gets s' <= gets s + (firesAt timeout - clock s)
  /\ starts s <= starts s'
  /\ starts s' + gets s <= starts s + gets s'
  /\ (forall v, r = Resolved (Some v) -> prop "status" v = Some "RUNNING")
  /\ r <> Pending.
Proof.
  induction n as [| n IH]; intros l s r s' H.
  - simpl in H. unfold ret in H. simplify_eq. repeat split; try done; lia.
  - simpl in H. unfold bind at 1 in H.
    destruct (pollMde remote args timeout l s) as [r1 s1] eqn:Hstep.
    destruct (pollMde_effects l s r1 s1 Hstep)
      as (Hc & Ht & Hn & Hg & Hs0 & Hs & Hdone & Hrun & Hp).
    assert (gets s1 <= gets s + (firesAt timeout - clock s)) as Hbound.
    { destruct (completed timeout (clock s)) eqn:Hlive.
      - rewrite (Hdone eq_refl). lia.
      - unfold completed in Hlive. apply Nat.leb_gt in Hlive. lia. }
    destruct r1 as [[[v |] l1] | e |]; simpl in H.
    + unfold ret in H. simplify_eq. repeat split; try done; try lia.
      intros v' [= <-]. by eapply Hrun.
    + unfold bind at 1, modify in H.
      destruct (IH l1 (tick s1) r s' H)
        as (Hc' & Ht' & Hn' & Hg' & Hb' & Hs0' & Hs' & Hrun' & Hp').
      simpl in *. repeat split; try done; try lia; try congruence.
    + simplify_eq. repeat split; try done; lia.
    + done.
Qed.

(** The first fetch always resolves, having sent one status fetch and
    nothing else; the workspace it returns at once is RUNNING. *)
Lemma firstFetch_effects status s :
  exists x,
    firstFetch remote args status s
    = (Resolved x, emit (Sent (GetDevelopmentWorkspace args)) s)
    /\ (forall env, x = inl env -> prop "status" env = Some "RUNNING").
Proof.
  unfold firstFetch, getDevelopmentWorkspace. unfold_monad.
  destruct (getDevelopmentWorkspaceR remote _ args) as [e | r]; simpl.
  - eexists. split; [reflexivity | done].
  - destruct (bool_decide (status = "RUNNING")); simpl; [| eexists; split; done].
    destruct (bool_decide (_ = Some "RUNNING")) eqn:Hst; simpl;
      (eexists; split; [reflexivity |]); [| done].
    intros env [= <-]. by apply bool_decide_eq_true in Hst.
Qed.

(** A loop that resolves to nothing has slept through all its rounds. *)
Lemma waitUntil_exhausted n : forall lastStatus s s',
  waitUntil (pollMde remote args timeout) n lastStatus s = (Resolved None, s') ->
  clock s' = clock s + n.
Proof.
  induction n as [| n IH]; intros l s s' H.
  - simpl in H. unfold ret in H. simplify_eq. lia.
  - simpl in H. unfold bind at 1 in H.
    destruct (pollMde remote args timeout l s) as [r1 s1] eqn:Hstep.
    destruct (pollMde_effects l s r1 s1 Hstep) as (Hc & _).
    destruct r1 as [[[v |] l1] | e |]; simpl in H; try done.
    unfold bind at 1, modify in H. apply IH in H. simpl in H. lia.
Qed.

(** How the polling phase ends, given how its loop ends: with the loop's
    own result when the loop settled before the timer fired, and else with
    nothing, after the error message when the timeout expired. *)
Lemma pollingPhase_ends lastStatus s1 r s' :
  pollingPhase remote args timeout lastStatus s1 = (r, s') ->
  exists r0 s0,
    waitUntil (pollMde remote args timeout)
      (remainingTime timeout (clock s1)) lastStatus (pollingStart s1) = (r0, s0)
    /\ ((r = r0 /\ s' = s0 /\ r0 <> Pending /\ clock s0 < firesAt timeout)
        \/ (r = Resolved None /\ firesAs timeout = Expired
            /\ s' = emit (timeoutNotice args) s0)
        \/ (r = Resolved None /\ firesAs timeout = Cancelled /\ s' = s0)).
Proof.
  rewrite pollingPhase_race. unfold waitTimeout.
  destruct (waitUntil _ _ _ _) as [r0 s0] eqn:Hloop. intros H.
  exists r0, s0. split; [done |].
  destruct (firesAs timeout) eqn:Has; unfold_monad;
    destruct r0; try destruct (clock s0 <? firesAt timeout) eqn:Hlt;
    simplify_eq; auto; left; repeat split; try done; by apply Nat.ltb_lt.
Qed.

(** What every run does, whatever the remote answers and whenever the
    timer fires. *)
Lemma start_effects status s r s' :
  startEnvironmentWithProgress remote args status timeout s = (r, s') ->
  this s' = this s
  /\ S (gets s) <= gets s'
  /\ gets s' <= S (gets s) + (firesAt timeout - clock s)
  /\ starts s <= starts s'
  /\ starts s' + S (gets s) <= starts s + gets s'
  /\ r <> Pending
  /\ (forall ws, r = Resolved (Some ws) -> prop "status" ws = Some "RUNNING")
  /\ (r = Resolved None /\ firesAs timeout = Expired ->
      exists tr, trace s' = timeoutNotice args :: tr /\ notices s' = S (notices s))
  /\ (~ (r = Resolved None /\ firesAs timeout = Expired) -> notices s' = notices s)
  /\ (firesAt timeout <= clock s ->
      (forall ws, r <> Resolved (Some ws)) -> r = Resolved None).
Proof.
  unfold startEnvironmentWithProgress, bind.
  destruct (firstFetch_effects status s) as (x & -> & Hx).
  destruct x as [env | l]; intros H.
  - unfold ret in H. simplify_eq. simpl.
    repeat split; try done; try lia.
    + intros ws [= <-]. by apply Hx.
    + intros [? _]. done.
    + intros _ Hws. contradiction (Hws env). done.
  - destruct (pollingPhase_ends _ _ _ _ H) as (r0 & s0 & Hloop & Hend).
    pose proof (waitUntil_effects _ _ _ _ _ Hloop)
      as (Hc & Ht & Hn & Hg & Hb & Hs0 & Hs & Hrun & Hp).
    pose proof (firesAt_le_deadline timeout) as Hd.
    simpl in *.
    destruct Hend as [(-> & -> & _ & Hlt) | [(-> & Has & ->) | (-> & Has & ->)]];
      simpl; repeat split; try done; try lia.
    all: try (intros [-> _]; apply waitUntil_exhausted in Hloop;
              unfold remainingTime in Hloop; simpl in Hloop; lia).
    all: try (intros [_ Has']; congruence).
    all: try (intros [_ Has']; exists (trace s0); split; [done | lia]).
    all: intros Hno; contradiction Hno; done.
Qed.

(** X6: whatever the target status passed in, a run that resolves to a
    workspace resolves to one whose status is RUNNING: the target is read
    by the first fetch only, and the loop waits for RUNNING. *)
Theorem start_resolves_to_running_only status s ws s' :
  startEnvironmentWithProgress remote args status timeout s
  = (Resolved (Some ws), s') ->
  prop "status" ws = Some "RUNNING".
Proof.
  intros H. destruct (start_effects _ _ _ _ H) as (_ & _ & _ & _ & _ & _ & Hrun & _).
  by apply Hrun.
Qed.

(** X7: every run sends the first status fetch and then at most one per
    interval left before the timer fires; it sends no start command
    without a status fetch of the loop before it, so never more start
    commands than polls; and it leaves the client object as it was. *)
Theorem start_sends_bounded status s r s' :
  startEnvironmentWithProgress remote args status timeout s = (r, s') ->
  S (gets s) <= gets s'
  /\ gets s' <= S (gets s) + (firesAt timeout - clock s)
  /\ starts s <= starts s'
  /\ starts s' - starts s <= gets s' - S (gets s)
  /\ this s' = this s.
Proof.
  intros H.
  destruct (start_effects _ _ _ _ H) as (Ht & Hg & Hb & Hs0 & Hs & _).
  repeat split; try done; lia.
Qed.

(** X8: a run shows the timeout error message exactly when it resolves to
    undefined because the timeout expired, and then once, as the last thing
    it does; a run that throws, returns a workspace or is cancelled shows
    none. *)
Theorem start_notice_iff_expired status s r s' :
  startEnvironmentWithProgress remote args status timeout s = (r, s') ->
  (r = Resolved None /\ firesAs timeout = Expired ->
   exists tr, trace s' = timeoutNotice args :: tr /\ notices s' = S (notices s))
  /\ (~ (r = Resolved None /\ firesAs timeout = Expired) -> notices s' = notices s).
Proof.
  intros H.
  destruct (start_effects _ _ _ _ H) as (_ & _ & _ & _ & _ & _ & _ & Hyes & Hno & _).
  done.
Qed.

(** X9: when the timeout has already completed as the run begins, the run
    sends the first status fetch and nothing more, no poll and no start
    command, and resolves to undefined, unless that first fetch finds the
    target RUNNING, which is returned. *)
Theorem start_with_completed_timeout status s r s' :
  completed timeout (clock s) = true ->
  startEnvironmentWithProgress remote args status timeout s = (r, s') ->
  gets s' = S (gets s)
  /\ starts s' = starts s
  /\ (r = Resolved None
      \/ exists ws, r = Resolved (Some ws) /\ status = "RUNNING"
                    /\ s' = emit (Sent (GetDevelopmentWorkspace args)) s).
Proof.
  intros Hdone H. unfold completed in Hdone. apply Nat.leb_le in Hdone.
  destruct (start_effects _ _ _ _ H)
    as (_ & Hg & Hb & Hs0 & Hs & _ & _ & _ & _ & Hnone).
  split; [lia |]. split; [lia |].
  destruct r as [[ws |] | e |];
    [| by left | discriminate (Hnone Hdone ltac:(done))
     | discriminate (Hnone Hdone ltac:(done))].
  - right. exists ws. split; [done |].
    revert H. unfold startEnvironmentWithProgress, bind.
    destruct (firstFetch_effects status s) as (x & Hf & Hx). rewrite Hf.
    destruct x as [env | l].
    + unfold ret. intros [= -> <-]. split; [| done].
      revert Hf. unfold firstFetch, tryCatch, bind, ret.
      destruct (getDevelopmentWorkspace remote args s) as [[] ?]; try done.
      destruct (bool_decide (status = "RUNNING")) eqn:Hst; [| done].
      intros _. by apply bool_decide_eq_true in Hst.
    + intros H. destruct (pollingPhase_ends _ _ _ _ H) as (r0 & s0 & Hloop & Hend).
      destruct Hend as [(<- & _ & _ & Hlt) | [(? & _) | (? & _)]]; try done.
      pose proof (waitUntil_effects _ _ _ _ _ Hloop) as (Hc & _).
      simpl in Hc. lia.
Qed.

End OrchestratorMore.

(** ** Listings: pages, objects and joins *)

Section ListingMore.

Variable remote : Remote.

(** X11: on the exhausted cursor, on a page that the remote refuses and
    on a page that carries items, a pull of a listing resolves: it is not
    rejected with the error of the remote and does not stay pending.  It
    sends the page request of its cursor and no other, and leaves the client
    and the clock as they were. *)
Theorem listing_pull_resolves l c cur s :
  listing remote l = Returned c ->
  (forall request tok,
      cur = Some request ->
      pageAnswer remote l request <> inr {| items := None; nextToken := tok |}) ->
  exists x s',
    next c cur s = (Resolved x, s')
    /\ this s' = this s
    /\ clock s' = clock s
    /\ trace s' = match cur with
                  | Some request => Sent (pageOperation l request) :: trace s
                  | None => trace s
                  end.
Proof.
  intros Hc Hitems. destruct cur as [request |];
    [| eexists _, _; split; [exact (listing_exhausted remote l c s Hc) | done]].
  destruct (pageAnswer remote l request) as [e | [[summaries |] tok]] eqn:Ha.
  - eexists _, _.
    split; [exact (listing_step_failed remote l c request e s Hc Ha) | done].
  - eexists _, _.
    split; [exact (listing_step remote l c request summaries tok s Hc Ha) | done].
  - by destruct (Hitems request tok eq_refl).
Qed.

(** X12: the object a listing makes of a summary has the properties of
    the summary, each with the summary's value, and the names the listing
    adds, and no other: what the listing adds (the type tag and the back
    references included) shows only where the summary has no property of
    that name. *)
Theorem resource_extends_summary l c summary :
  listing remote l = Returned c ->
  (forall k v, summary !! k = Some v -> resourceOf l summary !! k = Some v)
  /\ dom (resourceOf l summary) = dom summary ∪ addedProps l.
Proof.
  intros Hc. destruct l as [r | r | r | proj]; simpl in *.
  4: { unfold listDevEnvs in Hc. destruct (nameOf (proj !! "org")); [| done].
       unfold intoDevelopmentWorkspace. split.
       - intros k w Hk. by apply lookup_union_Some_l.
       - rewrite dom_union_L, !dom_insert_L, dom_singleton_L. set_solver. }
  all: unfold asCawsOrg, asCawsProject, asCawsRepo; split;
    [ intros k v Hk; by apply lookup_union_Some_l
    | rewrite dom_union_L, !dom_insert_L, dom_singleton_L; set_solver ].
Qed.

(** X13: the workspace [getDevelopmentWorkspace] returns for an answer [r]
    has every property of [r] with its value; where [r] has none of that
    name it has the id, the organization name and the project name of the
    request, the type tag and the two back references. *)
Theorem getDevelopmentWorkspace_merges args s r :
  nextWorkspaceAnswer remote args s = inr r ->
  exists ws,
    getDevelopmentWorkspace remote args s
    = (Resolved ws, emit (Sent (GetDevelopmentWorkspace args)) s)
    /\ (forall k v, r !! k = Some v -> ws !! k = Some v)
    /\ (r !! "id" = None -> ws !! "id" = Some (VStr (wsId args)))
    /\ (r !! "organizationName" = None ->
        ws !! "organizationName" = Some (VStr (organizationName args)))
    /\ (r !! "projectName" = None ->
        ws !! "projectName" = Some (VStr (projectName args)))
    /\ (r !! "type" = None -> ws !! "type" = Some (VStr "env"))
    /\ (r !! "org" = None -> ws !! "org" = Some (VName (Some (organizationName args))))
    /\ (r !! "project" = None ->
        ws !! "project" = Some (VName (Some (projectName args)))).
Proof.
  intros Ha. exists (fetched args r).
  split; [exact (getDevelopmentWorkspace_resolved remote args s r Ha) |].
  unfold fetched, intoDevelopmentWorkspace, requestObj.
  split; [intros k v Hk; by do 2 apply lookup_union_Some_l |].
  repeat split; intros Hk; rewrite !lookup_union, Hk; done.
Qed.

(** X21: [listDevEnvs] reads the organization name off the project before
    it builds any request, so on a project without an [org] property it
    throws a TypeError at once; on every project object that
    [listProjects] makes it returns its collection, since those always
    have an [org] property. *)
Theorem listDevEnvs_needs_org proj request summary :
  listDevEnvs remote (delete "org" proj)
  = Threw (JsTypeError "Cannot read properties of undefined (reading 'name')")
  /\ exists c, listDevEnvs remote (asCawsProject request summary) = Returned c.
Proof.
  unfold listDevEnvs. rewrite lookup_delete_eq. split; [done |].
  assert (is_Some (asCawsProject request summary !! "org")) as [v Hv].
  { unfold asCawsProject. rewrite lookup_union.
    rewrite lookup_insert_ne, lookup_insert_ne, lookup_insert_eq by done.
    destruct (summary !! "org"); by eexists. }
  rewrite Hv. destruct v; simpl; by eexists.
Qed.

(** A listing of one page, collected whole. *)
Lemma promise_one_page l c request summaries fuel s :
  listing remote l = Returned c ->
  pageAnswer remote l request = inr {| items := Some summaries; nextToken := None |} ->
  drain c (S (S fuel)) (Some request) s
  = (Resolved [resourceOf l <$> summaries],
     emit (Sent (pageOperation l request)) s).
Proof.
  intros Hc Ha. simpl. unfold bind.
  rewrite (listing_step remote l c request summaries None s Hc Ha). simpl.
  rewrite (listing_exhausted remote l c _ Hc). done.
Qed.

Lemma promise_refused l c request e fuel s :
  listing remote l = Returned c ->
  pageAnswer remote l request = inl e ->
  drain c (S (S fuel)) (Some request) s
  = (Resolved [[]], emit (Sent (pageOperation l request)) s).
Proof.
  intros Hc Ha. simpl. unfold bind.
  rewrite (listing_step_failed remote l c request e s Hc Ha). simpl.
  rewrite (listing_exhausted remote l c _ Hc). done.
Qed.

(** The arrays queued by [mapInner] are yielded one by one, and then the
    sequence is over when no outer batch is left. *)
Lemma drain_queue {C C' T U} fuel (collection : AsyncCollection C (list T))
    (fn : T -> Completion (AsyncCollection C' (list U))) queued : forall n s,
  length queued < n ->
  drain (mapInner fuel collection fn) n (Some (queued, [])) s = (Resolved queued, s).
Proof.
  induction queued as [| y queued IH]; intros n s Hn;
    (destruct n as [| n]; [simpl in Hn; lia |]).
  - done.
  - simpl in *. unfold bind, ret. rewrite (IH n s ltac:(lia)). done.
Qed.

Section Projects.

Variable fuel : nat.
Variable projectsOf : Obj -> list Obj.

Lemma flattenPromise_projects o s :
  listProjectsR remote (projectsRequest o)
  = inr {| items := Some (projectsOf (projectsRequest o)); nextToken := None |} ->
  flattenPromise (listProjects remote (projectsRequest o)) (S (S fuel)) s
  = (Resolved (projectsBatch projectsOf o),
     emit (Sent (ListProjects (projectsRequest o))) s).
Proof.
  intros Ha. unfold flattenPromise, bind, promise.
  change (start (listProjects remote (projectsRequest o)))
    with (Some (projectsRequest o)).
  rewrite (promise_one_page (LProjects (projectsRequest o)) _ (projectsRequest o)
             (projectsOf (projectsRequest o)) fuel s eq_refl Ha).
  unfold ret. simpl. rewrite app_nil_r. done.
Qed.

Lemma allInner_projects orgs : forall s,
  (forall o, o ∈ orgs ->
     listProjectsR remote (projectsRequest o)
     = inr {| items := Some (projectsOf (projectsRequest o)); nextToken := None |}) ->
  allInner (projectsOfOrg remote) (S (S fuel)) (asCawsOrg <$> orgs) s
  = (Resolved (projectsBatch projectsOf <$> orgs),
     sentAll (ListProjects ∘ projectsRequest <$> orgs) s).
Proof.
  induction orgs as [| o orgs IH]; intros s Hpages; [done |].
  rewrite !fmap_cons. cbn [allInner].
  change (projectsOfOrg remote (asCawsOrg o))
    with (Returned (listProjects remote (projectsRequest o))).
  cbv iota. unfold bind at 1.
  rewrite (flattenPromise_projects o s (Hpages o ltac:(set_solver))).
  unfold bind at 1.
  rewrite IH by (intros o' Ho'; apply Hpages; set_solver).
  done.
Qed.

End Projects.

(** X14: when the remote refuses the first page of organizations, the
    listings of all projects, all repositories and all workspaces are
    empty: collected whole they resolve to no batch at all, the one
    refused request being all they have sent. *)
Theorem listResources_without_organizations fuel n s e resourceType :
  listOrganizationsR remote ∅ = inl e ->
  2 <= fuel -> 1 <= n ->
  resourceType = TProject \/ resourceType = TRepo \/ resourceType = TEnv ->
  collected (listResources remote fuel resourceType s) n s
  = (Resolved [], emit (Sent (ListOrganizations ∅)) s).
Proof.
  intros Ha Hfuel Hn Hty.
  destruct fuel as [| [| fuel]]; [lia | lia |]. destruct n as [| n]; [lia |].
  assert (forall m s0,
            drain (mapInner (S (S fuel)) (listOrgs remote ∅) (projectsOfOrg remote))
              (S m) None s0
            = (Resolved [], emit (Sent (ListOrganizations ∅)) s0)) as Hprojects.
  { intros m s0. simpl drain. unfold bind at 1. simpl next. unfold bind at 1.
    unfold promise. simpl start.
    rewrite (promise_refused (LOrgs ∅) _ ∅ e fuel s0 eq_refl Ha). done. }
  destruct Hty as [-> | [-> | ->]]; unfold collected, promise; simpl.
  - apply Hprojects.
  - unfold bind at 1. unfold bind at 1. unfold promise. simpl start.
    rewrite Hprojects. done.
  - unfold bind at 1. unfold bind at 1. unfold promise. simpl start.
    rewrite Hprojects. done.
Qed.

(** X15: when the organizations come on one page and the projects of each
    of them come on one page, the listing of all projects, collected whole,
    gives one batch for each organization, in the order of the page: the
    projects of that organization as the remote listed them, made into
    project objects with the back reference to the organization.  It has
    sent the one request for organizations and then one request for
    projects for each organization. *)
Theorem listResources_projects_of_all_organizations fuel n s orgs projectsOf :
  listOrganizationsR remote ∅ = inr {| items := Some orgs; nextToken := None |} ->
  (forall o, o ∈ orgs ->
     listProjectsR remote (projectsRequest o)
     = inr {| items := Some (projectsOf (projectsRequest o)); nextToken := None |}) ->
  2 <= fuel -> length orgs < n ->
  collected (listResources remote fuel TProject s) n s
  = (Resolved (projectsBatch projectsOf <$> orgs),
     sentAll (ListProjects ∘ projectsRequest <$> orgs)
       (emit (Sent (ListOrganizations ∅)) s)).
Proof.
  intros Ha Hpages Hfuel Hn.
  destruct fuel as [| [| fuel]]; [lia | lia |]. destruct n as [| n]; [lia |].
  assert (promise (listOrgs remote ∅) (S (S fuel)) s
          = (Resolved [asCawsOrg <$> orgs], emit (Sent (ListOrganizations ∅)) s))
    as Horgs
    by exact (promise_one_page (LOrgs ∅) _ ∅ orgs fuel s eq_refl Ha).
  unfold collected, promise. simpl.
  unfold bind at 1. unfold bind at 1. rewrite Horgs.
  cbn [mapInnerStep]. unfold bind at 1.
  rewrite (allInner_projects fuel projectsOf orgs _ Hpages).
  destruct orgs as [| o orgs]; [done |].
  rewrite !fmap_cons. simpl in Hn. unfold ret at 1. unfold bind at 1.
  rewrite drain_queue by (rewrite length_fmap; lia).
  done.
Qed.

End ListingMore.

(** ** Organizations, projects, new workspaces and sessions *)

Section LifecycleMore.

Variable remote : Remote.
Variable sdk_getOrganization : Obj -> Request Obj.
Variable sdk_getProject : Obj -> Request Obj.
Variable sdk_createDevelopmentWorkspace :
  CreateDevelopmentWorkspaceRequest -> Request CreateDevelopmentWorkspaceResponse.
Variable sdk_startSessionDevelopmentWorkspace : Obj -> Request StartSessionResponse.

Lemma assertObjHasProps_present props o s :
  missingProps props o = [] -> assertObjHasProps props o s = (Resolved o, s).
Proof. unfold assertObjHasProps. intros ->. done. Qed.

Lemma assertObjHasProps_missing props o s :
  missingProps props o <> [] ->
  assertObjHasProps props o s
  = (Rejected (JsError ("Properties are missing: "
                        +:+ String.concat ", " (missingProps props o))), s).
Proof.
  unfold assertObjHasProps. destruct (missingProps props o); [done |].
  intros _. done.
Qed.

Lemma missing_id_name o :
  missingProps ["id"; "name"] o = [] <-> is_Some (o !! "id") /\ is_Some (o !! "name").
Proof.
  unfold missingProps. simpl.
  destruct (o !! "id"), (o !! "name"); simpl; split; try done;
    try (intros _; split; by eexists);
    intros [[? ?] [? ?]]; done.
Qed.

(** X16: [getOrg] and [getProject] write the type tag last, and
    [getProject] the back reference too: when the answer has an id and a
    name the result has the type ['org'] (['project']) and, for a project,
    the organization name of the request as its [org], whatever the answer
    says under these names, and is the answer in every other property.
    When the answer lacks the id or the name the call is rejected with the
    error that names what is missing.  Either way one request is sent. *)
Theorem getOrg_getProject_tag_last request resp s :
  (respond (sdk_getOrganization request) (trace s) = inr resp ->
   if decide (missingProps ["id"; "name"] resp = [])
   then exists org,
          getOrg sdk_getOrganization request s
          = (Resolved org, emit (Sent (operation (sdk_getOrganization request))) s)
          /\ org !! "type" = Some (VStr "org")
          /\ forall k, k <> "type" -> org !! k = resp !! k
   else getOrg sdk_getOrganization request s
        = (Rejected (JsError ("Properties are missing: "
                              +:+ String.concat ", "
                                    (missingProps ["id"; "name"] resp))),
           emit (Sent (operation (sdk_getOrganization request))) s))
  /\ (respond (sdk_getProject request) (trace s) = inr resp ->
      if decide (missingProps ["id"; "name"] resp = [])
      then exists proj,
             getProject sdk_getProject request s
             = (Resolved proj, emit (Sent (operation (sdk_getProject request))) s)
             /\ proj !! "type" = Some (VStr "project")
             /\ proj !! "org" = Some (VName (prop "organizationName" request))
             /\ forall k, k <> "type" -> k <> "org" -> proj !! k = resp !! k
      else getProject sdk_getProject request s
           = (Rejected (JsError ("Properties are missing: "
                                 +:+ String.concat ", "
                                       (missingProps ["id"; "name"] resp))),
              emit (Sent (operation (sdk_getProject request))) s)).
Proof.
  split; intros Ha; unfold getOrg, getProject, bind, call; rewrite Ha;
    destruct (decide (missingProps ["id"; "name"] resp = [])) as [Hm | Hm].
  - rewrite (assertObjHasProps_present _ _ _ Hm). eexists. split; [reflexivity |].
    split; [apply lookup_insert_eq |]. intros k Hk. by apply lookup_insert_ne.
  - rewrite (assertObjHasProps_missing _ _ _ Hm). done.
  - rewrite (assertObjHasProps_present _ _ _ Hm). eexists. split; [reflexivity |].
    split; [by rewrite lookup_insert_ne, lookup_insert_eq |].
    split; [apply lookup_insert_eq |].
    intros k Hk1 Hk2. by rewrite !lookup_insert_ne.
  - rewrite (assertObjHasProps_missing _ _ _ Hm). done.
Qed.

(** X17: [createDevEnv] without runtimes, the list missing or empty, is
    rejected with [missing ideRuntimes] and has sent nothing. *)
Theorem createDevEnv_requires_runtimes args s :
  ideRuntimes args = None \/ ideRuntimes args = Some [] ->
  createDevEnv remote sdk_createDevelopmentWorkspace args s
  = (Rejected (JsError "missing ideRuntimes"), s).
Proof. unfold createDevEnv. intros [-> | ->]; done. Qed.

(** X18: [createDevEnv] with runtimes sends the create request first.  An
    error of the remote is passed on.  When the remote answers, the
    workspace may exist and [createDevEnv] still be rejected: with the
    validation error and no further request when the answer has no id,
    and with the error of the status fetch when that fetch is refused.
    Else it resolves to the workspace fetched under the id of the answer
    and the organization and project of the request. *)
Theorem createDevEnv_creates_then_fetches args s runtime runtimes :
  ideRuntimes args = Some (runtime :: runtimes) ->
  let created := emit (Sent (operation (sdk_createDevelopmentWorkspace args))) s in
  let run := createDevEnv remote sdk_createDevelopmentWorkspace args s in
  match respond (sdk_createDevelopmentWorkspace args) (trace s) with
  | inl e => run = (Rejected e, created)
  | inr {| createdId := None |} =>
      run = (Rejected (JsError "Properties are missing: id"), created)
  | inr {| createdId := Some id |} =>
      let request := {| wsId := id;
                        organizationName := createOrganizationName args;
                        projectName := createProjectName args |} in
      let fetching := emit (Sent (GetDevelopmentWorkspace request)) created in
      match nextWorkspaceAnswer remote request created with
      | inl e => run = (Rejected e, fetching)
      | inr r => run = (Resolved (fetched request r), fetching)
      end
  end.
Proof.
  intros Hrt created run. subst run created. unfold createDevEnv. rewrite Hrt.
  unfold bind, call, assertHasProps. cbv beta.
  destruct (respond _ (trace s)) as [e | [[id |]]]; simpl; [done | | done].
  match goal with |- context [nextWorkspaceAnswer remote ?q ?st] =>
    destruct (nextWorkspaceAnswer remote q st) as [e | r] eqn:Ha;
    [ exact (getDevelopmentWorkspace_rejected remote q st e Ha)
    | exact (getDevelopmentWorkspace_resolved remote q st r Ha) ]
  end.
Qed.

(** X19: [startDevEnvSession] resolves exactly when the answer carries a
    session id that is not the empty string, to the answer with that id; an
    answer without a session id or with the empty one is rejected with the
    TypeError, and an error of the remote is passed on. *)
Theorem startDevEnvSession_needs_session_id args s :
  let sent := emit (Sent (operation (sdk_startSessionDevelopmentWorkspace args))) s in
  let run := startDevEnvSession sdk_startSessionDevelopmentWorkspace args s in
  match respond (sdk_startSessionDevelopmentWorkspace args) (trace s) with
  | inl e => run = (Rejected e, sent)
  | inr r =>
      match respSessionId r with
      | Some id =>
          if decide (id = "")
          then run = (Rejected falsySessionId, sent)
          else run = (Resolved {| sessionId := id; session := respSession r |}, sent)
      | None => run = (Rejected falsySessionId, sent)
      end
  end.
Proof.
  intros sent run. subst run sent. unfold startDevEnvSession, bind, call. cbv beta.
  destruct (respond _ (trace s)) as [e | r]; [done |].
  destruct (respSessionId r) as [id |]; [| done].
  destruct (decide (id = "")) as [-> | Hne]; [done |].
  rewrite (truthy_nonempty id Hne). done.
Qed.

(** X20: a client made by [createClient] is not connected, whatever
    cookie it was given: [token] and [identity] throw and no user id is
    bound.  Its transport has the region and the endpoint of the client,
    which by default are those of one stage, and sets the bearer header
    when the cookie is not empty.  After a [verifySession] that resolves
    the user id is bound to the identity verified, [identity] returns the
    id and the name of the details returned, and the client is connected
    exactly when the cookie is not empty. *)
Theorem createClient_connects_by_verifySession stage authCookie region url now tr :
  let c := createClient stage authCookie region url in
  let s := {| this := c; clock := now; trace := tr |} in
  connected c = false
  /\ token c = Threw (JsError "CAWS client is not connected")
  /\ clientIdentity c = Threw (JsError "CAWS client is not connected")
  /\ clientUserId c = None
  /\ sdkClient c = createCawsClient authCookie (regionCode c) (endpoint c)
  /\ (region = None -> url = None ->
      regionCode c = cfgRegion (getCawsConfig stage)
      /\ endpoint c = cfgEndpoint (getCawsConfig stage))
  /\ (authorization (sdkClient c)
      = if truthy authCookie then (fun t => "Bearer " +:+ t) <$> authCookie else None)
  /\ forall d s',
       verifySession remote s = (Resolved d, s') ->
       connected (this s') = truthy authCookie
       /\ clientIdentity (this s') = Returned (userId d, userName d)
       /\ exists i, clientUserId (this s') = Some i
                    /\ nextVerifyAnswer remote s = inr {| identity := Some i |}.
Proof.
  intros c s. subst c s. unfold createClient.
  split; [unfold connected; simpl; by rewrite andb_false_r |].
  split; [unfold token, connected; simpl; by rewrite andb_false_r |].
  split; [done |]. split; [done |]. split; [done |].
  split; [by intros -> -> |].
  split; [destruct authCookie as [t |]; simpl; [by destruct (String.eqb t "") | done] |].
  intros d s'.
  unfold nextVerifyAnswer, verifySession, getUserDetails, assertHasProps, setUserId,
    setUserDetails, connected, clientIdentity.
  unfold_monad. intros H.
  destruct (verifySessionR remote _) as [e0 | [[i |]]]; simpl in *; [done | | done].
  repeat (case_match; simplify_eq; simpl in *).
  rewrite andb_true_r. split; [done |]. split; [done |]. by exists i.
Qed.

End LifecycleMore.

(** ** The further properties at work *)

(** Details of [u1] are installed on a session bound to [u1]; the remote
    then verifies [u2]. *)
Lemma setCredentials_details_keep_bound_id_witness :
  exists s1,
    setCredentials "fresh" (Some (inr someDetails)) (someState (Some "u1"))
    = (Resolved tt, s1)
    /\ verifySession (scripted [] (Some "u2") unavailable unavailable) s1
       = (Rejected mismatchError, emit (Sent VerifySession) s1).
Proof.
  destruct (setCredentials_details_keep_bound_id
              (scripted [] (Some "u2") unavailable unavailable)
              (someState (Some "u1")) "fresh" someDetails "u1" "u2")
    as (s1 & H1 & _ & _ & _ & H2);
    [reflexivity | discriminate | reflexivity | discriminate |].
  exists s1. split; [exact H1 | exact H2].
Defined.

Lemma setCredentials_alone_forgets_details_witness :
  exists s1 d s2,
    setCredentials "fresh" None (someState None) = (Resolved tt, s1)
    /\ verifySession (scripted [] (Some "u1") unavailable unavailable) s1
       = (Resolved d, s2)
    /\ trace s2 = [Sent (GetUserDetails "u1"); Sent VerifySession].
Proof.
  destruct (setCredentials_alone_forgets_details
              (scripted [] (Some "u1") unavailable unavailable)
              (someState None) "fresh")
    as (s1 & H1 & _ & _ & _ & _ & _ & Hnext).
  assert (s1 = (setCredentials "fresh" None (someState None)).2) as ->
    by (rewrite H1; reflexivity).
  eexists _, _, _. split; [exact H1 |]. split; [vm_compute; reflexivity |].
  reflexivity.
Defined.

(** The identity [u2] is accepted and then the details are refused. *)
Lemma verifySession_rejected_keeps_details_witness :
  let r := refusingUserDetails (scripted [] (Some "u2") unavailable unavailable) in
  exists s',
    verifySession r (someState None) = (Rejected (AWSError "AccessDenied"), s')
    /\ userDetails (this s') = None.
Proof.
  intros r. eexists. split; [vm_compute; reflexivity |].
  refine (proj1 (verifySession_rejected_keeps_details r (someState None)
                   (AWSError "AccessDenied") _ _)).
  vm_compute. reflexivity.
Defined.

Lemma verifySession_resolved_binds_witness :
  let r := scripted [] (Some "u1") unavailable unavailable in
  exists d s',
    verifySession r (someState None) = (Resolved d, s')
    /\ clientUserId (this s') = Some "u1".
Proof.
  intros r. eexists _, _. split; [vm_compute; reflexivity |].
  destruct (verifySession_resolved_binds r (someState None) _ _ eq_refl)
    as (i & Hi & Hid & _).
  vm_compute in Hi. injection Hi as <-. exact Hid.
Defined.

(** A run asked for the target STOPPED while the workspace is running:
    it polls once and returns the running workspace. *)
Lemma start_resolves_to_running_only_witness :
  let r := scripted [withStatus "RUNNING"; withStatus "RUNNING"] None
             unavailable unavailable in
  exists ws s',
    startEnvironmentWithProgress r someWorkspace "STOPPED" (newTimeout 0)
      (someState None)
    = (Resolved (Some ws), s')
    /\ prop "status" ws = Some "RUNNING".
Proof.
  intros r. eexists _, _. split; [vm_compute; reflexivity |].
  apply (start_resolves_to_running_only r someWorkspace (newTimeout 0) "STOPPED"
           (someState None) _ _ eq_refl).
Defined.

(** The workspace is found STOPPED twice and is started once. *)
Lemma start_sends_bounded_witness :
  let r := scripted [withStatus "STOPPED"; withStatus "STOPPED";
                     withStatus "STARTING"; withStatus "RUNNING"]
             None unavailable unavailable in
  let run := startEnvironmentWithProgress r someWorkspace "RUNNING" (newTimeout 0)
               (someState None) in
  count isGetDevelopmentWorkspace (trace run.2) <= 1 + 36
  /\ count isStartDevelopmentWorkspace (trace run.2)
     <= count isGetDevelopmentWorkspace (trace run.2) - 1.
Proof.
  intros r run.
  destruct (start_sends_bounded r someWorkspace (newTimeout 0) "RUNNING"
              (someState None) run.1 run.2)
    as (_ & Hb & _ & Hs & _); [apply surjective_pairing |].
  split; [exact Hb | exact Hs].
Defined.

(** The workspace stays STARTING until the timeout of two intervals
    expires. *)
Lemma start_notice_iff_expired_witness :
  let r := scripted (replicate 3 (withStatus "STARTING")) None unavailable unavailable in
  let run := startEnvironmentWithProgress r someWorkspace "RUNNING"
               {| deadline := 2; cancelAt := None |} (someState None) in
  run.1 = Resolved None
  /\ exists tr, trace run.2 = timeoutNotice someWorkspace :: tr.
Proof.
  intros r run. split; [reflexivity |].
  destruct (start_notice_iff_expired r someWorkspace
              {| deadline := 2; cancelAt := None |} "RUNNING"
              (someState None) run.1 run.2)
    as [Hyes _]; [apply surjective_pairing |].
  destruct (Hyes (conj eq_refl eq_refl)) as (tr & Htr & _).
  exists tr. exact Htr.
Defined.

(** The user has cancelled before the run begins. *)
Lemma start_with_completed_timeout_witness :
  let r := scripted [withStatus "STOPPED"; withStatus "STOPPED"] None
             unavailable unavailable in
  let run := startEnvironmentWithProgress r someWorkspace "RUNNING"
               {| deadline := 36; cancelAt := Some 0 |} (someState None) in
  count isGetDevelopmentWorkspace (trace run.2) = 1
  /\ count isStartDevelopmentWorkspace (trace run.2) = 0
  /\ run.1 = Resolved None.
Proof.
  intros r run.
  destruct (start_with_completed_timeout r someWorkspace
              {| deadline := 36; cancelAt := Some 0 |} "RUNNING"
              (someState None) run.1 run.2)
    as (Hg & Hs & _); [reflexivity | apply surjective_pairing |].
  split; [exact Hg |]. split; [exact Hs | reflexivity].
Defined.

(** The first page of organizations, refused by the remote. *)
Lemma listing_pull_resolves_witness :
  let r := scripted [] None unavailable unavailable in
  exists x s',
    next (listOrgs r ∅) (Some ∅) (someState None) = (Resolved x, s')
    /\ trace s' = [Sent (ListOrganizations ∅)].
Proof.
  intros r.
  destruct (listing_pull_resolves r (LOrgs ∅) (listOrgs r ∅) (Some ∅)
              (someState None) eq_refl)
    as (x & s' & H & _ & _ & Ht); [intros request tok _; discriminate |].
  exists x, s'. split; [exact H | exact Ht].
Defined.

(** A project summary that has a type of its own keeps it. *)
Lemma resource_extends_summary_witness :
  let r := scripted [] None unavailable unavailable in
  let summary : Obj := {[ "name" := VStr "p"; "type" := VStr "archived" ]} in
  resourceOf (LProjects ∅) summary !! "type" = Some (VStr "archived")
  /\ dom (resourceOf (LProjects ∅) summary) = {[ "type"; "id"; "org"; "name" ]}.
Proof.
  intros r summary.
  destruct (resource_extends_summary r (LProjects ∅) (listProjects r ∅) summary eq_refl)
    as [Hkeep Hdom].
  split; [apply Hkeep; reflexivity |].
  rewrite Hdom. unfold summary. simpl.
  rewrite dom_insert_L, dom_singleton_L. set_solver.
Defined.

(** An answer that carries a status and an id of its own. *)
Lemma getDevelopmentWorkspace_merges_witness :
  let r := scripted [inr {[ "status" := VStr "RUNNING"; "id" := VStr "other" ]}]
             None unavailable unavailable in
  exists ws s',
    getDevelopmentWorkspace r someWorkspace (someState None) = (Resolved ws, s')
    /\ ws !! "id" = Some (VStr "other")
    /\ ws !! "projectName" = Some (VStr "proj").
Proof.
  intros r.
  destruct (getDevelopmentWorkspace_merges r someWorkspace (someState None)
              {[ "status" := VStr "RUNNING"; "id" := VStr "other" ]} eq_refl)
    as (ws & Hrun & Hkeep & _ & _ & Hproj & _).
  exists ws. eexists. split; [exact Hrun |].
  split; [apply Hkeep; reflexivity | apply Hproj; reflexivity].
Defined.

Lemma listResources_without_organizations_witness :
  let r := scripted [] None unavailable unavailable in
  collected (listResources r 2 TEnv (someState None)) 1 (someState None)
  = (Resolved [], emit (Sent (ListOrganizations ∅)) (someState None)).
Proof.
  intros r.
  apply (listResources_without_organizations r 2 1 (someState None)
           (AWSError "ServiceUnavailable") TEnv eq_refl); [lia | lia |].
  right. right. reflexivity.
Defined.

(** Two organizations with one project each. *)
Lemma listResources_projects_of_all_organizations_witness :
  let r := withProjects projectPages
             (scripted [] None twoOrganizations unavailable) in
  exists s',
    collected (listResources r 2 TProject (someState None)) 3 (someState None)
    = (Resolved [ [ asCawsProject {[ "organizationName" := VStr "first" ]}
                      {[ "name" := VStr "project" ]} ];
                  [ asCawsProject {[ "organizationName" := VStr "second" ]}
                      {[ "name" := VStr "project" ]} ] ], s')
    /\ length (trace s') = 3.
Proof.
  intros r. eexists. split.
  - apply (listResources_projects_of_all_organizations r 2 3 (someState None)
             [ {[ "name" := VStr "first" ]}; {[ "name" := VStr "second" ]} ]
             oneProjectEach eq_refl); [| lia | simpl; lia].
    intros o _. reflexivity.
  - reflexivity.
Defined.

(** Answers that call themselves a repository of another organization. *)
Lemma getOrg_getProject_tag_last_witness :
  let org := fun _ : Obj => answering (named "getOrganization") (inr mislabelled) in
  let proj := fun _ : Obj => answering (named "getProject") (inr mislabelled) in
  let request : Obj := {[ "organizationName" := VStr "org" ]} in
  (exists o s', getOrg org request (someState None) = (Resolved o, s')
                /\ o !! "type" = Some (VStr "org"))
  /\ (exists p s', getProject proj request (someState None) = (Resolved p, s')
                   /\ p !! "type" = Some (VStr "project")
                   /\ p !! "org" = Some (VName (Some "org"))).
Proof.
  intros org proj request.
  destruct (getOrg_getProject_tag_last org proj request mislabelled (someState None))
    as [Horg Hproj].
  split.
  - destruct (Horg eq_refl) as (o & Hrun & Hty & _).
    eexists o, _. split; [exact Hrun | exact Hty].
  - destruct (Hproj eq_refl) as (p & Hrun & Hty & Href & _).
    eexists p, _. split; [exact Hrun |]. split; [exact Hty | exact Href].
Defined.

Lemma createDevEnv_requires_runtimes_witness :
  let r := scripted [] None unavailable unavailable in
  createDevEnv r creating (someCreation (Some [])) (someState None)
  = (Rejected (JsError "missing ideRuntimes"), someState None)
  /\ createDevEnv r creating (someCreation None) (someState None)
     = (Rejected (JsError "missing ideRuntimes"), someState None).
Proof.
  intros r. split.
  - apply (createDevEnv_requires_runtimes r creating (someCreation (Some []))).
    right. reflexivity.
  - apply (createDevEnv_requires_runtimes r creating (someCreation None)).
    left. reflexivity.
Defined.

(** The workspace is created and then fetched, and is running. *)
Lemma createDevEnv_creates_then_fetches_witness :
  let r := scripted [withStatus "RUNNING"] None unavailable unavailable in
  exists ws s',
    createDevEnv r creating (someCreation (Some ["runtime"])) (someState None)
    = (Resolved ws, s')
    /\ prop "id" ws = Some "ws-1"
    /\ length (trace s') = 2.
Proof.
  intros r. eexists _, _. split.
  - exact (createDevEnv_creates_then_fetches r creating
             (someCreation (Some ["runtime"])) (someState None) "runtime" [] eq_refl).
  - split; reflexivity.
Defined.

(** A fresh client with a cookie, verified as [u1]. *)
Lemma createClient_connects_by_verifySession_witness :
  let r := scripted [] (Some "u1") unavailable unavailable in
  let s := {| this := createClient "gamma" (Some "cookie") None None;
              clock := 0; trace := [] |} in
  regionCode (this s) = "us-west-2"
  /\ connected (this s) = false
  /\ exists d s', verifySession r s = (Resolved d, s')
                  /\ connected (this s') = true.
Proof.
  intros r s.
  destruct (createClient_connects_by_verifySession r "gamma" (Some "cookie") None None
              0 [])
    as (Hoff & _ & _ & _ & _ & Hcfg & _ & Hon).
  split; [exact (proj1 (Hcfg eq_refl eq_refl)) |]. split; [exact Hoff |].
  eexists _, _. split; [vm_compute; reflexivity |].
  exact (proj1 (Hon _ _ eq_refl)).
Defined.
